(** * getIcons: the two Flaticon fetch scripts

    A shallow embedding of [scripts/fetch_flaticon.py] (one icon per label of
    a file) and [workflows/fetch_flaticon.py] (up to N icons for one query),
    and the properties of their text helpers, searcher, downloader and
    drivers.

    Python text is a sequence of Unicode code points; exceptions are values
    of [exn]; the network, the file system and the two output streams are an
    explicit state threaded through a small state-and-exception monad. *)

From Stdlib Require Import List ZArith NArith Lia Bool String Ascii.
From Stdlib Require Import DecimalString.
Import ListNotations.

Set Implicit Arguments.

(* ================================================================== *)
(** * Python text *)

(** A Python [str]: its code points, in order. *)
Definition str := list N.

(** An ASCII literal of the source as a [str]. *)
Definition lit (s : string) : str :=
  List.map N_of_ascii (list_ascii_of_string s).

Definition str_eqb (a b : str) : bool :=
  if list_eq_dec N.eq_dec a b then true else false.

(** [str(n)] for an [int]. *)
Definition str_of_int (n : Z) : str :=
  lit (NilZero.string_of_int (Z.to_int n)).

Definition in_range (lo hi c : N) : bool := ((lo <=? c) && (c <=? hi))%N.

(** [str.isspace] of one code point, which is also what [\s] matches in a
    [str] pattern: the white space of the Unicode character database. *)
Definition isspace (c : N) : bool :=
  in_range 9 13 c || in_range 28 32 c || (c =? 133)%N || (c =? 160)%N
  || (c =? 5760)%N || in_range 8192 8202 c || (c =? 8232)%N || (c =? 8233)%N
  || (c =? 8239)%N || (c =? 8287)%N || (c =? 12288)%N.

Definition hyphen : N := 45.
Definition is_hyphen (c : N) : bool := (c =? hyphen)%N.

(** Lower-casing of text that has a code point above 127 follows the
    Unicode case tables, which this development leaves open: every theorem
    holds for any such mapping. *)
Class Unicode := { lower_ext : str -> str }.

Definition is_ascii (c : N) : bool := (c <? 128)%N.

Definition ascii_lower (c : N) : N :=
  if in_range 65 90 c then (c + 32)%N else c.

(** [str.lower]. *)
Definition lower {U : Unicode} (s : str) : str :=
  if forallb is_ascii s then List.map ascii_lower s else lower_ext s.

(** Drop the leading code points that satisfy [p]. *)
Fixpoint lstrip_by (p : N -> bool) (s : str) : str :=
  match s with
  | [] => []
  | c :: s' => if p c then lstrip_by p s' else s
  end.

Definition rstrip_by (p : N -> bool) (s : str) : str :=
  rev (lstrip_by p (rev s)).

(** [s.strip()]. *)
Definition strip (s : str) : str := rstrip_by isspace (lstrip_by isspace s).

(** [s.strip(chars)]. *)
Definition strip_chars (chars : str) (s : str) : str :=
  let p c := existsb (N.eqb c) chars in
  rstrip_by p (lstrip_by p s).

Fixpoint startswith (s p : str) : bool :=
  match p, s with
  | [], _ => true
  | a :: p', b :: s' => (a =? b)%N && startswith s' p'
  | _ :: _, [] => false
  end.

(** [sub in s]. *)
Fixpoint contains (sub s : str) : bool :=
  startswith s sub ||
  match s with
  | [] => false
  | _ :: s' => contains sub s'
  end.

(** [s.replace(old, new)] for a non-empty [old]: the occurrences of [old] are
    found from the left and do not overlap; [skip] counts the code points of
    the occurrence just replaced that are still to be passed over. *)
Fixpoint replace_from (old new : str) (skip : nat) (s : str) : str :=
  match s with
  | [] => []
  | c :: s' =>
      match skip with
      | S n => replace_from old new n s'
      | O =>
          if startswith s old
          then new ++ replace_from old new (List.length old - 1) s'
          else c :: replace_from old new 0 s'
      end
  end.

(** [s.replace(old, new)]; an empty [old] matches before every code point
    and at the end. *)
Definition replace (old new : str) (s : str) : str :=
  match old with
  | [] => new ++ flat_map (fun c => c :: new) s
  | _ :: _ => replace_from old new 0 s
  end.

(** [re.sub("[...]+", repl, s)] for a character class given as a predicate
    and a replacement without escapes: every maximal run of code points of
    the class becomes one [repl]. [in_run] tells that the previous code point
    belonged to the class. *)
Fixpoint sub_runs (cls : N -> bool) (repl : str) (in_run : bool) (s : str) : str :=
  match s with
  | [] => []
  | c :: s' =>
      if cls c
      then (if in_run then [] else repl) ++ sub_runs cls repl true s'
      else c :: sub_runs cls repl false s'
  end.

Definition re_sub_plus (cls : N -> bool) (repl : str) (s : str) : str :=
  sub_runs cls repl false s.

(** [x or default] for text. *)
Definition or_str (x default : str) : str :=
  match x with [] => default | _ :: _ => x end.

(* ================================================================== *)
(** * Exceptions *)

(** The messages of the [RuntimeError]s the scripts raise, with the values
    their f-strings interpolate. *)
Inductive runtime_msg :=
| AuthFailed (status : Z) (text : str)
| AuthMissingToken
| SearchError (status : Z) (text : str)
| DownloadError (icon_id : Z) (status : Z) (text : str)
| UnexpectedDownload (icon_id : Z) (excerpt : str).

Inductive exn :=
| RuntimeError (m : runtime_msg)
| TypeError                       (* a call that lacks a required argument *)
| AttributeError                  (* an attribute the object does not have *)
| NameError                       (* a name that is not bound *)
| HTTPError (status : Z)          (* [Response.raise_for_status] *)
| RequestException                (* the request got no response *)
| JSONDecodeError                 (* [Response.json] on a body that is not JSON *)
| OSError                         (* a file system call failed *)
| SystemExit (code : Z).          (* [sys.exit] *)

(** [except Exception] catches everything here but [SystemExit]. *)
Definition is_Exception (e : exn) : bool :=
  match e with SystemExit _ => false | _ => true end.

Inductive result (A : Type) :=
| Ok (a : A)
| Raise (e : exn).
Arguments Ok {A} a.
Arguments Raise {A} e.

Definition rbind {A B} (r : result A) (k : A -> result B) : result B :=
  match r with Ok a => k a | Raise e => Raise e end.

(** [re.sub(pattern, repl)]: the call gives no subject string, and [re.sub]
    has no default for it, so Python raises [TypeError] before any matching. *)
Definition re_sub_without_string (pattern repl : str) : result str :=
  Raise TypeError.

(* ================================================================== *)
(** * The world the scripts run in *)

Inductive image_format := png | svg.

Inductive order_mode := priority | added.

Definition order_str (o : order_mode) : str :=
  match o with priority => lit "priority" | added => lit "added" end.

Definition format_str (fmt : image_format) : str :=
  match fmt with png => lit "png" | svg => lit "svg" end.

Definition is_png (fmt : image_format) : bool :=
  match fmt with png => true | svg => false end.

(** The value of a query parameter. *)
Inductive pval :=
| PStr (s : str)
| PInt (n : Z).

Inductive http_method := GET | POST.

(** A call of [requests.get] or [requests.post]. [params] is empty when the
    call passes [None] or no [params] at all; [files] holds the multipart
    fields. *)
Record request := {
  method : http_method;
  url : str;
  headers : list (str * str);
  params : list (str * pval);
  files : list (str * str);
  stream : bool }.

(** A path, as its components. *)
Definition path := list str.

(** [dir / name]. *)
Definition path_join (dir : path) (name : str) : path := dir ++ [name].

Definition bytes := list N.

(** The ["id"] entry of a search record. *)
Inductive id_field :=
| IdAbsent
| IdNull
| IdInt (n : Z).

(** A record of a search result: its identifier, and whether it has keys
    other than ["id"]. *)
Record icon_record := {
  id : id_field;
  other_keys : bool }.

(** [item.get("id")]. *)
Definition get_id (item : icon_record) : option Z :=
  match id item with IdInt n => Some n | _ => None end.

(** [not icon_id]. *)
Definition id_falsy (icon_id : option Z) : bool :=
  match icon_id with None => true | Some n => (n =? 0)%Z end.

(** Truth value of a record: a dictionary is false when it is empty. *)
Definition record_truthy (item : icon_record) : bool :=
  match id item with IdAbsent => other_keys item | _ => true end.

(** The ["metadata"] of a search page; an entry is [None] when absent. *)
Record metadata := {
  page : option Z;
  total : option Z;
  count : option Z }.

(** The JSON of a search page: ["data"] and ["metadata"], each [None] when
    absent. *)
Record search_payload := {
  data : option (list icon_record);
  meta : option metadata }.

(** The replies of the four endpoints. The JSON of a body is [None] when the
    body does not parse ([Response.json] raises); bodies that parse have the
    shape the upstream interface gives them, with entries possibly absent. *)
Record auth_response := {
  auth_status : Z;
  auth_text : str;
  auth_json : option (option str) }.        (* the ["token"] entry *)

Record search_response := {
  search_status : Z;
  search_text : str;
  search_json : option search_payload }.

Record resolve_response := {
  resolve_status : Z;
  resolve_text : str;
  resolve_content : bytes;
  resolve_content_type : option str;        (* the Content-Type header *)
  resolve_url : option str }.               (* [r.json()["data"]["url"]]; [None]
                                               when that expression raises *)

Record asset_response := {
  asset_status : Z;
  asset_chunks : list bytes }.              (* what [iter_content] yields; the
                                               stream is taken to arrive
                                               whole *)

Inductive out_stream := stdout | stderr.

Inductive miss_reason := NoResults | MissingId.

(** The lines the scripts print, with the values they interpolate, and the
    two texts that the argument parser prints itself. *)
Inductive line :=
| UsageMessage
| HelpText
| KeyNotSet
| LabelOK (label q : str) (icon_id : Z) (dest : path)
| LabelMISS (label q : str) (reason : miss_reason)
| LabelERR (label q : str) (e : exn)
| LabelDone (successes failures : Z) (out_dir : path)
| QueryFound (n : nat) (limit : Z)
| QueryOK (icon_id : Z) (dest : path)
| QueryFail (icon_id : Z) (e : exn)
| QueryDone (downloaded : Z) (out_dir : path).

(** What a run does that is visible from outside, most recent first. *)
Inductive event :=
| EvRequest (r : request)
| EvMkdir (p : path)
| EvWrite (p : path)
| EvPrint (to : out_stream) (l : line)
| EvSleep (ms : Z).

(** The inputs of a run that the scripts do not control: the environment
    variable, the servers (each reply may depend on everything that happened
    before; [None] is a request that got no response) and the lines of the
    files that can be read ([None] for a file that cannot be opened). *)
Record world := {
  env_api_key : option str;
  auth_server : list event -> request -> option auth_response;
  search_server : list event -> request -> option search_response;
  resolve_server : list event -> request -> option resolve_response;
  asset_server : list event -> request -> option asset_response;
  read_lines : str -> option (list str) }.

Definition path_eqb (a b : path) : bool :=
  if list_eq_dec (list_eq_dec N.eq_dec) a b then true else false.

(** [contents] holds the writes, the newest first: a path that is written
    twice has two entries, and the file at a path holds what the newest
    write to it put there. *)
Record state := {
  events : list event;
  dirs : list path;
  contents : list (path * bytes) }.

(** The empty path is the current directory. *)
Definition is_dir (st : state) (p : path) : bool :=
  match p with
  | [] => true
  | _ :: _ => existsb (path_eqb p) (dirs st)
  end.
Definition is_file (st : state) (p : path) : bool :=
  existsb (fun f => path_eqb p (fst f)) (contents st).

Definition log (e : event) (st : state) : state :=
  {| events := e :: events st; dirs := dirs st; contents := contents st |}.

(** ** The monad: state, and a result or an exception *)

Definition M (A : Type) : Type := state -> result A * state.

Definition ret {A} (a : A) : M A := fun st => (Ok a, st).

Definition raise {A} (e : exn) : M A := fun st => (Raise e, st).

Definition bind {A B} (m : M A) (k : A -> M B) : M B :=
  fun st =>
    match m st with
    | (Ok a, st') => k a st'
    | (Raise e, st') => (Raise e, st')
    end.

Definition lift {A} (r : result A) : M A := fun st => (r, st).

(** [try: body  except Exception as e: handler e]. *)
Definition try_except {A} (body : M A) (handler : exn -> M A) : M A :=
  fun st =>
    match body st with
    | (Raise e, st') => if is_Exception e then handler e st' else (Raise e, st')
    | r => r
    end.

Declare Scope py_scope.
Delimit Scope py_scope with py.
Notation "x <- m ;; k" := (bind m (fun x => k))
  (at level 100, m at next level, right associativity) : py_scope.
Notation "m ;;; k" := (bind m (fun _ => k))
  (at level 100, right associativity) : py_scope.
Open Scope py_scope.

Definition print (to : out_stream) (l : line) : M unit :=
  fun st => (Ok tt, log (EvPrint to l) st).

Definition sleep (ms : Z) : M unit :=
  fun st => (Ok tt, log (EvSleep ms) st).

(** The reply a server gives to a request after the events [hist]. *)
Definition reply {R} (server : list event -> request -> option R)
  (hist : list event) (req : request) : result R :=
  match server hist req with
  | Some r => Ok r
  | None => Raise RequestException
  end.

(** A request to one of the servers: the reply is the server's, given what
    happened so far, and the request is recorded. *)
Definition send {R} (server : list event -> request -> option R) (req : request) : M R :=
  fun st => (reply server (events st) req, log (EvRequest req) st).

(** [open(name, "r")] and the lines of the file. *)
Definition open_lines (w : world) (name : str) : M (list str) :=
  fun st =>
    match read_lines w name with
    | Some lines => (Ok lines, st)
    | None => (Raise OSError, st)
    end.

(** The non-empty prefixes of a path: the path and its parents, outermost
    first. *)
Fixpoint parents_and_self (p : path) : list path :=
  match p with
  | [] => []
  | c :: p' => [c] :: List.map (cons c) (parents_and_self p')
  end.

(** [p.mkdir(parents=True, exist_ok=True)]: fails when the path or one of
    its parents is a file; otherwise the path and its parents are
    directories afterwards. *)
Definition mkdir_parents (p : path) : M unit :=
  fun st =>
    if existsb (is_file st) (parents_and_self p)
    then (Raise OSError, st)
    else (Ok tt, {| events := EvMkdir p :: events st;
                    dirs := parents_and_self p ++ dirs st;
                    contents := contents st |}).

(** The directory a path lies in. *)
Definition parent (p : path) : path := removelast p.

(** Writing [content] to the file [p], opened with mode ["wb"]: the
    directory of [p] must exist and [p] must not be a directory. *)
Definition write_file (p : path) (content : bytes) : M unit :=
  fun st =>
    if is_dir st (parent p) && negb (is_dir st p)
    then (Ok tt, {| events := EvWrite p :: events st;
                    dirs := dirs st;
                    contents := (p, content) :: contents st |})
    else (Raise OSError, st).

(** [Response.raise_for_status]. *)
Definition raise_for_status (status : Z) : M unit :=
  if ((400 <=? status) && (status <? 600))%Z then raise (HTTPError status) else ret tt.

Definition API_BASE : str := lit "https://api.flaticon.com/v3".

Definition accept_json : str * str := (lit "Accept", lit "application/json").

Definition bearer (token : str) : str * str :=
  (lit "Authorization", lit "Bearer " ++ token).

(** [len(l)] as an [int]. *)
Definition len {A} (l : list A) : Z := Z.of_nat (List.length l).

(** [l[:n]]. *)
Definition slice_to {A} (n : Z) (l : list A) : list A :=
  if (0 <=? n)%Z then firstn (Z.to_nat n) l
  else firstn (List.length l - Z.to_nat (- n)) l.

(** A [GET] with these headers and parameters. *)
Definition get (u : str) (hs : list (str * str)) (ps : list (str * pval))
  (streamed : bool) : request :=
  {| method := GET; url := u; headers := hs; params := ps; files := [];
     stream := streamed |}.

(** [resp.json()]. *)
Definition json_of {A} (body : option A) : result A :=
  match body with Some j => Ok j | None => Raise JSONDecodeError end.

(** ["Content-Type" in r.headers and ("image/" in ... or "svg" in ...)]. *)
Definition image_content_type (r : resolve_response) : bool :=
  match resolve_content_type r with
  | Some ct => contains (lit "image/") ct || contains (lit "svg") ct
  | None => false
  end.

(** The parameters that carry the size: present for png with a non-zero
    size only. *)
Definition size_params (fmt : image_format) (size : Z) : list (str * pval) :=
  if is_png fmt && negb (size =? 0)%Z then [(lit "size", PInt size)] else [].

(** The class [[a-z0-9._-]]. *)
Definition filename_char (c : N) : bool :=
  in_range 97 122 c || in_range 48 57 c || (c =? 46)%N || (c =? 95)%N
  || (c =? 45)%N.

(** The class [[a-z0-9._ -]]. *)
Definition filename_char_or_space (c : N) : bool :=
  filename_char c || (c =? 32)%N.

(* ================================================================== *)
(** * The command line *)

(** What [parse_args] makes of the command line. It returns the namespace;
    or it ends the program itself: with status 2, after the usage message
    on the standard error, when it does not accept the command line (a
    required option is missing, an option is unknown or lacks its value, a
    value is not among the choices or is not an integer); and with status
    0, after the help text on the standard output, for [-h] and
    [--help]. *)
Inductive parsed (A : Type) :=
| Namespace (a : A)
| UsageError
| HelpRequested.

Arguments UsageError {A}.
Arguments HelpRequested {A}.

(* ================================================================== *)
(** * scripts/fetch_flaticon.py: one icon per label *)

Module Scripts.

(** The namespace [parse_args] returns. *)
Record args := {
  file : str;
  format : image_format;
  size : Z;
  order : order_mode;
  out : path;
  delay_ms : Z }.

Section Run.
Context {U : Unicode} (w : world).

Definition get_token (api_key : str) : M str :=
  let url := API_BASE ++ lit "/app/authentication" in
  resp <- send (auth_server w)
            {| method := POST; url := url; headers := [accept_json];
               params := []; files := [(lit "apikey", api_key)];
               stream := false |} ;;
  if negb (auth_status resp =? 200)%Z
  then raise (RuntimeError (AuthFailed (auth_status resp) (auth_text resp)))
  else
    data <- lift (json_of (auth_json resp)) ;;
    match data with
    | Some ((_ :: _) as token) => ret token
    | _ => raise (RuntimeError AuthMissingToken)
    end.

(** [safe_filename]. Its second substitution is written
    [re.sub(r"[./]+", "-")]. *)
Definition safe_filename (text : str) : result str :=
  let t := lower (strip text) in
  let t := replace (lit "&") (lit "and") t in
  rbind (re_sub_without_string (lit "[./]+") (lit "-")) (fun t =>
  let t := re_sub_plus (fun c => negb (filename_char_or_space c)) [] t in
  let t := re_sub_plus isspace (lit "-") t in
  let t := re_sub_plus is_hyphen (lit "-") t in
  Ok (or_str (strip_chars (lit "-") t) (lit "icon"))).

(** The substitution table of [normalize_query], in the order of the
    dictionary literal. *)
Definition fixes : list (str * str) :=
  [ (lit "e.guitar", lit "electric guitar");
    (lit "e.piano", lit "electric piano");
    (lit "drumkit", lit "drum kit");
    (lit "sub category", lit "subcategory");
    (lit "choir&vocals", lit "choir vocals");
    (lit "church&christmas", lit "church christmas");
    (lit "euro dance", lit "eurodance");
    (lit "euro organ artist", lit "organ artist");
    (lit "fm xpanded", lit "fm expanded");
    (lit "japanes", lit "japanese");
    (lit "vietnamise", lit "vietnamese");
    (lit "bariton", lit "baritone");
    (lit "sa 2", lit "sa2") ].

(** One turn of the loop [for k, v in fixes.items()]. *)
Definition apply_fix (key : str) (kv : str * str) : str :=
  if contains (fst kv) key then replace (fst kv) (snd kv) key else key.

Definition en_dash : N := 8211.
Definition em_dash : N := 8212.

(** The key as the loop over the table first sees it: trimmed, lower-cased,
    with both dashes turned into hyphens. *)
Definition initial_key (label : str) : str :=
  let raw := strip label in
  let key := strip (lower raw) in
  replace [em_dash] (lit "-") (replace [en_dash] (lit "-") key).

Definition normalize_query (label : str) : str :=
  let raw := strip label in
  let key := initial_key label in
  let key := fold_left apply_fix fixes key in
  let key := replace (lit ".") (lit " ") key in
  let key := strip (re_sub_plus isspace (lit " ") key) in
  or_str key raw.

Definition search_first_icon (token query : str) (order_by : order_mode)
  : M (option icon_record) :=
  let url := API_BASE ++ lit "/search/icons/" ++ order_str order_by in
  let headers := [accept_json; bearer token] in
  let params := [(lit "q", PStr query); (lit "limit", PInt 1); (lit "page", PInt 1)] in
  r <- send (search_server w) (get url headers params false) ;;
  if negb (search_status r =? 200)%Z
  then raise (RuntimeError (SearchError (search_status r) (search_text r)))
  else
    payload <- lift (json_of (search_json r)) ;;
    let data := match data payload with Some d => d | None => [] end in
    ret (match data with [] => None | first :: _ => Some first end).

Definition download_icon (token : str) (icon_id : Z) (fmt : image_format)
  (size : Z) (dest_path : path) : M unit :=
  let headers := [accept_json; bearer token] in
  let url_q := API_BASE ++ lit "/item/icon/download/" ++ str_of_int icon_id in
  let params := (lit "format", PStr (format_str fmt)) :: size_params fmt size in
  r <- send (resolve_server w) (get url_q headers params false) ;;
  r <- (if (resolve_status r =? 404)%Z
        then
          let url_p := API_BASE ++ lit "/item/icon/download/" ++ str_of_int icon_id
                         ++ lit "/" ++ format_str fmt in
          send (resolve_server w) (get url_p headers (size_params fmt size) false)
        else ret r) ;;
  if negb (resolve_status r =? 200)%Z
  then raise (RuntimeError (DownloadError icon_id (resolve_status r) (resolve_text r)))
  else
    match resolve_url r with
    | Some ((_ :: _) as u) =>
        asset <- send (asset_server w) (get u [] [] true) ;;
        raise_for_status (asset_status asset) ;;;
        write_file dest_path (List.concat (asset_chunks asset))
    | _ =>
        if image_content_type r
        then write_file dest_path (resolve_content r)
        else raise (RuntimeError (UnexpectedDownload icon_id (firstn 500 (resolve_text r))))
    end.

(** The labels of the input file: the trimmed lines that are not empty and
    do not start with [#]. *)
Definition read_labels (lines : list str) : list str :=
  filter (fun s => negb (str_eqb s []) && negb (startswith s (lit "#")))
         (List.map strip lines).

(** [args.delay]: the parser declares [--delay-ms], whose attribute is
    [delay_ms]; the namespace has no attribute [delay]. *)
Definition args_delay (a : args) : result Z := Raise AttributeError.

(** The name [ms], which nothing binds. *)
Definition name_ms : result Z := Raise NameError.

(** The body of [try] for one label, with the two counters. *)
Definition attempt (a : args) (token label q : str) (dest_path : path)
  (counts : Z * Z) : M (Z * Z) :=
  let (successes, failures) := counts in
  icon <- search_first_icon token q (order a) ;;
  match icon with
  | Some item =>
      if record_truthy item
      then
        let icon_id := get_id item in
        match icon_id with
        | Some n =>
            if (n =? 0)%Z
            then print stderr (LabelMISS label q MissingId) ;;;
                 ret (successes, failures + 1)%Z
            else download_icon token n (format a) (size a) dest_path ;;;
                 print stdout (LabelOK label q n dest_path) ;;;
                 ret (successes + 1, failures)%Z
        | None =>
            print stderr (LabelMISS label q MissingId) ;;;
            ret (successes, failures + 1)%Z
        end
      else print stderr (LabelMISS label q NoResults) ;;;
           ret (successes, failures + 1)%Z
  | None =>
      print stderr (LabelMISS label q NoResults) ;;;
      ret (successes, failures + 1)%Z
  end.

(** One turn of [for label in labels]. Its last statement is
    [time.sleep(max(0.0, args.delay-ms / 1000.0))]: the difference of
    [args.delay] and [ms / 1000.0], in seconds. *)
Definition process_label (a : args) (token : str) (out_dir : path) (label : str)
  (counts : Z * Z) : M (Z * Z) :=
  let q := normalize_query label in
  filename_base <- lift (safe_filename label) ;;
  let ext := match format a with svg => lit "svg" | png => lit "png" end in
  let dest_path := path_join out_dir (filename_base ++ lit "." ++ ext) in
  counts <- try_except (attempt a token label q dest_path counts)
              (fun e => print stderr (LabelERR label q e) ;;;
                        ret (fst counts, snd counts + 1)%Z) ;;
  delay <- lift (args_delay a) ;;
  ms <- lift name_ms ;;
  sleep (Z.max 0 (delay - ms / 1000) * 1000) ;;;
  ret counts.

Fixpoint for_each_label (a : args) (token : str) (out_dir : path)
  (labels : list str) (counts : Z * Z) : M (Z * Z) :=
  match labels with
  | [] => ret counts
  | label :: rest =>
      counts <- process_label a token out_dir label counts ;;
      for_each_label a token out_dir rest counts
  end.

(** The statements of [main()] that follow [args = ap.parse_args()], for
    the namespace [a]. *)
Definition main (a : args) : M unit :=
  match env_api_key w with
  | Some ((_ :: _) as api_key) =>
      let out_dir := out a in
      mkdir_parents out_dir ;;;
      token <- get_token api_key ;;
      lines <- open_lines w (file a) ;;
      let labels := read_labels lines in
      counts <- for_each_label a token out_dir labels (0, 0)%Z ;;
      print stdout (LabelDone (fst counts) (snd counts) out_dir)
  | _ =>
      print stderr KeyNotSet ;;;
      raise (SystemExit 2)
  end.

(** [main()] from its first line: [args = ap.parse_args()], which may end
    the program, and then the statements above. *)
Definition main_cli (command_line : parsed args) : M unit :=
  match command_line with
  | Namespace a => main a
  | UsageError => print stderr UsageMessage ;;; raise (SystemExit 2)
  | HelpRequested => print stdout HelpText ;;; raise (SystemExit 0)
  end.

End Run.
End Scripts.

(* ================================================================== *)
(** * workflows/fetch_flaticon.py: up to N icons for one query *)

Module Workflows.

(** The namespace [parse_args] returns. *)
Record args := {
  query : str;
  limit : Z;
  format : image_format;
  size : Z;
  order : order_mode;
  out : path }.

Section Run.
Context {U : Unicode} (w : world).

Definition get_token (api_key : str) : M str :=
  let url := API_BASE ++ lit "/app/authentication" in
  resp <- send (auth_server w)
            {| method := POST; url := url; headers := [accept_json];
               params := []; files := [(lit "apikey", api_key)];
               stream := false |} ;;
  if negb (auth_status resp =? 200)%Z
  then raise (RuntimeError (AuthFailed (auth_status resp) (auth_text resp)))
  else
    data <- lift (json_of (auth_json resp)) ;;
    match data with
    | Some ((_ :: _) as token) => ret token
    | _ => raise (RuntimeError AuthMissingToken)
    end.

(** The request of one turn of the loop of [search_icons]. *)
Definition search_request (token query : str) (order_by : order_mode)
  (limit : Z) (out : list icon_record) (page : Z) : request :=
  let url := API_BASE ++ lit "/search/icons/" ++ order_str order_by in
  let headers := [accept_json; bearer token] in
  get url headers
      [(lit "q", PStr query); (lit "limit", PInt (Z.min 100 (limit - len out)));
       (lit "page", PInt page)]
      false.

(** [payload.get("metadata", {})]. *)
Definition metadata_of (m : option metadata) : metadata :=
  match m with
  | Some meta => meta
  | None => {| page := None; total := None; count := None |}
  end.

(** [meta.get("page", 1)]. *)
Definition meta_page (meta : metadata) : Z :=
  match page meta with Some p => p | None => 1%Z end.

(** [meta.get("total", meta.get("count", 0))]. *)
Definition meta_total (meta : metadata) : Z :=
  match total meta with
  | Some t => t
  | None => match count meta with Some c => c | None => 0%Z end
  end.

(** [meta.get("page", 1) * 1 >= meta.get("total", meta.get("count", 0))]. *)
Definition last_page (meta : metadata) : bool :=
  (meta_page meta * 1 >=? meta_total meta)%Z.

(** The [while] loop of [search_icons], for at most [fuel] turns; [None] is a
    loop cut short by the lack of fuel. *)
Fixpoint search_loop (fuel : nat) (token query : str) (order_by : order_mode)
  (limit : Z) (out : list icon_record) (page : Z) (st : state)
  : option (result (list icon_record) * state) :=
  if (len out <? limit)%Z then
    match fuel with
    | O => None
    | S fuel' =>
        match send (search_server w)
                (search_request token query order_by limit out page) st with
        | (Raise e, st1) => Some (Raise e, st1)
        | (Ok r, st1) =>
            if negb (search_status r =? 200)%Z
            then Some (Raise (RuntimeError
                         (SearchError (search_status r) (search_text r))), st1)
            else
              match search_json r with
              | None => Some (Raise JSONDecodeError, st1)
              | Some payload =>
                  let items := match data payload with Some d => d | None => [] end in
                  match items with
                  | [] => Some (Ok out, st1)
                  | _ :: _ =>
                      let out := out ++ items in
                      let meta := metadata_of (meta payload) in
                      if last_page meta || (len items =? 0)%Z
                      then Some (Ok out, st1)
                      else search_loop fuel' token query order_by limit out
                             (page + 1)%Z (log (EvSleep 200) st1)
                  end
              end
        end
    end
  else Some (Ok out, st).

(** [search_icons]. Every turn that leads to another one has lengthened
    [out], so [limit] turns of fuel are never used up and the last branch is
    never taken. *)
Definition search_icons (token query : str) (order_by : order_mode) (limit : Z)
  : M (list icon_record) :=
  fun st =>
    match search_loop (Z.to_nat limit) token query order_by limit [] 1%Z st with
    | Some (Ok out, st') => (Ok (slice_to limit out), st')
    | Some (Raise e, st') => (Raise e, st')
    | None => (Ok [], st)
    end.

Definition safe_filename (text : str) : str :=
  let text := lower (strip text) in
  let text := re_sub_plus (fun c => negb (filename_char c)) (lit "-") text in
  or_str (strip_chars (lit "-") (re_sub_plus is_hyphen (lit "-") text))
         (lit "icon").

(** [requests.get(u, stream=True)]; a [u] that is empty or [None] is no URL
    and raises before anything is sent. *)
Definition get_asset (u : str) : M asset_response :=
  match u with
  | [] => raise RequestException
  | _ :: _ => send (asset_server w) (get u [] [] true)
  end.

Definition download_icon (token : str) (icon_id : Z) (fmt : image_format)
  (size : Z) (dest_dir : path) : M path :=
  let headers := [accept_json; bearer token] in
  let url_q := API_BASE ++ lit "/item/icon/download/" ++ str_of_int icon_id in
  let params := (lit "format", PStr (format_str fmt)) :: size_params fmt size in
  r <- send (resolve_server w) (get url_q headers params false) ;;
  r <- (if (resolve_status r =? 404)%Z
        then
          let url_p := API_BASE ++ lit "/item/icon/download/" ++ str_of_int icon_id
                         ++ lit "/" ++ format_str fmt in
          send (resolve_server w) (get url_p headers (size_params fmt size) false)
        else ret r) ;;
  if negb (resolve_status r =? 200)%Z
  then raise (RuntimeError (DownloadError icon_id (resolve_status r) (resolve_text r)))
  else
    match resolve_url r with
    | None =>
        match resolve_content_type r with
        | Some ct =>
            if contains (lit "image/") ct || contains (lit "svg") ct
            then
              let ext := if contains (lit "svg") ct then lit "svg" else lit "png" in
              let out := path_join dest_dir (str_of_int icon_id ++ lit "." ++ ext) in
              write_file out (resolve_content r) ;;;
              ret out
            else raise (RuntimeError
                          (UnexpectedDownload icon_id (firstn 500 (resolve_text r))))
        | None => raise (RuntimeError
                           (UnexpectedDownload icon_id (firstn 500 (resolve_text r))))
        end
    | Some u =>
        asset <- get_asset u ;;
        raise_for_status (asset_status asset) ;;;
        let ext := match fmt with svg => lit "svg" | png => lit "png" end in
        let out := path_join dest_dir (str_of_int icon_id ++ lit "." ++ ext) in
        write_file out (List.concat (asset_chunks asset)) ;;;
        ret out
    end.

(** One turn of [for item in results]. *)
Definition process_item (a : args) (token : str) (out_dir : path)
  (item : icon_record) (downloaded : Z) : M Z :=
  match get_id item with
  | Some icon_id =>
      if (icon_id =? 0)%Z then ret downloaded
      else
        downloaded <-
          try_except
            (dest <- download_icon token icon_id (format a) (size a) out_dir ;;
             print stdout (QueryOK icon_id dest) ;;;
             ret (downloaded + 1)%Z)
            (fun e => print stderr (QueryFail icon_id e) ;;; ret downloaded) ;;
        sleep 150 ;;;
        ret downloaded
  | None => ret downloaded
  end.

Fixpoint for_each_item (a : args) (token : str) (out_dir : path)
  (results : list icon_record) (downloaded : Z) : M Z :=
  match results with
  | [] => ret downloaded
  | item :: rest =>
      downloaded <- process_item a token out_dir item downloaded ;;
      for_each_item a token out_dir rest downloaded
  end.

(** The statements of [main()] that follow [args = p.parse_args()], for the
    namespace [a]. *)
Definition main (a : args) : M unit :=
  match env_api_key w with
  | Some ((_ :: _) as api_key) =>
      let out_dir := out a in
      mkdir_parents out_dir ;;;
      token <- get_token api_key ;;
      results <- search_icons token (query a) (order a) (limit a) ;;
      print stdout (QueryFound (List.length results) (limit a)) ;;;
      downloaded <- for_each_item a token out_dir results 0%Z ;;
      print stdout (QueryDone downloaded out_dir)
  | _ =>
      print stderr KeyNotSet ;;;
      raise (SystemExit 2)
  end.

(** [main()] from its first line: [args = p.parse_args()], which may end the
    program, and then the statements above. *)
Definition main_cli (command_line : parsed args) : M unit :=
  match command_line with
  | Namespace a => main a
  | UsageError => print stderr UsageMessage ;;; raise (SystemExit 2)
  | HelpRequested => print stdout HelpText ;;; raise (SystemExit 0)
  end.

End Run.
End Workflows.

(** Text in ASCII only, where [lower_ext] is never consulted. *)
Definition ascii_text : Unicode := {| lower_ext := fun s => s |}.

(** How a process ends: [sys.exit(n)] gives [n], any other uncaught
    exception gives 1, a normal end gives 0. *)
Definition exit_status {A} (r : result A) : Z :=
  match r with
  | Ok _ => 0
  | Raise (SystemExit n) => n
  | Raise _ => 1
  end.

(** The requests among some events, oldest first. *)
Definition requests_of (evs : list event) : list request :=
  rev (flat_map (fun e => match e with EvRequest r => [r] | _ => [] end) evs).

(** The lines printed among some events, oldest first. *)
Definition printed (evs : list event) : list line :=
  rev (flat_map (fun e => match e with EvPrint _ l => [l] | _ => [] end) evs).

(* ================================================================== *)
(** * What the properties speak of *)

(** [s.startswith(p)] seen from the other end. *)
Definition endswith (s p : str) : bool := startswith (rev s) (rev p).

(** A full match of [[...]+] for the class [cls]. *)
Definition matches_plus (cls : N -> bool) (s : str) : bool :=
  negb (str_eqb s []) && forallb cls s.

Definition is_ok {A} (r : result A) : bool :=
  match r with Ok _ => true | Raise _ => false end.

(** The page a search reply carries: its items and its metadata, when the
    reply has status 200 and a JSON body. *)
Definition page_of (r : result search_response)
  : option (list icon_record * option metadata) :=
  match r with
  | Ok resp =>
      if (search_status resp =? 200)%Z
      then match search_json resp with
           | Some payload =>
               Some (match data payload with Some d => d | None => [] end,
                     meta payload)
           | None => None
           end
      else None
  | Raise _ => None
  end.

Definition items_of (pg : option (list icon_record * option metadata))
  : list icon_record :=
  match pg with Some (items, _) => items | None => [] end.

Definition has_request (evs : list event) : Prop :=
  exists r, In (EvRequest r) evs.

(** The events [todo] of a search, oldest first, follow the pagination:
    [hist] is what happened before them, [acc] the number of records
    accumulated so far, [pg] the number of the next page and [prev] the page
    received last. Every request is sent below the limit, asks for
    [min(100, limit - acc)] items of page [pg], and is followed by another
    request only if its page had items and its metadata did not end the
    search; a search that ends without an exception ([ok]) ends because the
    limit is reached, the last page was empty, or its metadata ended the
    search. *)
Fixpoint paginates (w : world) (query : str) (limit : Z) (ok : bool)
  (hist : list event) (acc pg : Z)
  (prev : option (list icon_record * option metadata)) (todo : list event)
  : Prop :=
  match todo with
  | [] =>
      ok = true ->
      (limit <= acc)%Z
      \/ exists items m, prev = Some (items, m)
           /\ (items = [] \/ Workflows.last_page (Workflows.metadata_of m) = true)
  | EvRequest r :: rest =>
      let got := page_of (reply (search_server w) hist r) in
      (acc < limit)%Z
      /\ params r = [(lit "q", PStr query);
                     (lit "limit", PInt (Z.min 100 (limit - acc)));
                     (lit "page", PInt pg)]
      /\ (has_request rest ->
          exists items m, got = Some (items, m) /\ items <> []
                          /\ Workflows.last_page (Workflows.metadata_of m) = false)
      /\ paginates w query limit ok (EvRequest r :: hist)
           (acc + len (items_of got)) (pg + 1) got rest
  | e :: rest => paginates w query limit ok (e :: hist) acc pg prev rest
  end.

(** ** Kinds of exceptions *)

Definition is_auth_error (e : exn) : bool :=
  match e with
  | RuntimeError (AuthFailed _ _) | RuntimeError AuthMissingToken => true
  | _ => false
  end.

(** Neither [SystemExit] nor an authentication error. *)
Definition benign (e : exn) : bool := is_Exception e && negb (is_auth_error e).

(** The computation raises only exceptions of the kind [P]. *)
Definition raises_only {A} (P : exn -> bool) (m : M A) : Prop :=
  forall st, match fst (m st) with Raise e => P e = true | Ok _ => True end.

(** No exception at all. *)
Definition never (_ : exn) : bool := false.

(** The variable that holds the key is unset or empty. *)
Definition key_missing (w : world) : Prop :=
  env_api_key w = None \/ env_api_key w = Some [].

(** The authentication request. *)
Definition auth_request (api_key : str) : request :=
  {| method := POST; url := API_BASE ++ lit "/app/authentication";
     headers := [accept_json]; params := [];
     files := [(lit "apikey", api_key)]; stream := false |}.

(** The request of [search_first_icon]. *)
Definition first_icon_request (token q : str) (order_by : order_mode) : request :=
  get (API_BASE ++ lit "/search/icons/" ++ order_str order_by)
      [accept_json; bearer token]
      [(lit "q", PStr q); (lit "limit", PInt 1); (lit "page", PInt 1)] false.

(** A run that started in [st] and ended in [st'] did this and no more: it
    made the output directory, then sent the authentication request. No file
    is written, and the directory and its parents exist. *)
Definition stopped_at_authentication (w : world) (out_dir : path) (st st' : state)
  : Prop :=
  exists api_key,
    env_api_key w = Some api_key
    /\ events st' = [EvRequest (auth_request api_key); EvMkdir out_dir] ++ events st
    /\ contents st' = contents st
    /\ is_dir st' out_dir = true
    /\ Forall (fun d => is_dir st' d = true) (parents_and_self out_dir).


(** The download request with the format as a query parameter. *)
Definition query_style (token : str) (icon_id : Z) (fmt : image_format) (size : Z)
  : request :=
  get (API_BASE ++ lit "/item/icon/download/" ++ str_of_int icon_id)
      [accept_json; bearer token]
      ((lit "format", PStr (format_str fmt)) :: size_params fmt size) false.

(** The download request with the format as a path segment. *)
Definition path_style (token : str) (icon_id : Z) (fmt : image_format) (size : Z)
  : request :=
  get (API_BASE ++ lit "/item/icon/download/" ++ str_of_int icon_id
         ++ lit "/" ++ format_str fmt)
      [accept_json; bearer token] (size_params fmt size) false.

(** The first request of the download of the icon [n], as an event. *)
Definition download_attempt (token : str) (fmt : image_format) (size : Z) (n : Z)
  : event :=
  EvRequest (query_style token n fmt size).

(** The streamed, unauthenticated fetch of an asset. *)
Definition asset_fetch (u : str) : request := get u [] [] true.

(** The reply of the download endpoint that a download goes on with: the
    reply to the first request, or to the second one after a 404. *)
Definition final_reply (w : world) (token : str) (icon_id : Z)
  (fmt : image_format) (size : Z) (st : state) : result resolve_response :=
  let q := query_style token icon_id fmt size in
  match reply (resolve_server w) (events st) q with
  | Ok r1 =>
      if (resolve_status r1 =? 404)%Z
      then reply (resolve_server w) (EvRequest q :: events st)
             (path_style token icon_id fmt size)
      else Ok r1
  | Raise e => Raise e
  end.


Definition download_error (icon_id : Z) (r : resolve_response) : exn :=
  RuntimeError (DownloadError icon_id (resolve_status r) (resolve_text r)).

(** What a download does once [r] is the last reply of the download
    endpoint and [base] the state right after it: with a status other than
    200 it ends there with the download error; with 200 it sends at most one
    more request, the fetch of an asset. *)
Definition after_resolve {A} (icon_id : Z) (r : resolve_response) (base : state)
  (outcome : result A * state) : Prop :=
  if (resolve_status r =? 200)%Z
  then exists later,
         events (snd outcome) = later ++ events base
         /\ (requests_of later = [] \/ exists u, requests_of later = [asset_fetch u])
  else outcome = (Raise (download_error icon_id r), base).

(** The order of the requests of a download [run] started in [st]. *)
Definition resolve_protocol {A} (w : world) (token : str) (icon_id : Z)
  (fmt : image_format) (size : Z) (run : M A) (st : state) : Prop :=
  let q := query_style token icon_id fmt size in
  let p := path_style token icon_id fmt size in
  let st1 := log (EvRequest q) st in
  let st2 := log (EvRequest p) st1 in
  match reply (resolve_server w) (events st) q with
  | Raise e => run st = (Raise e, st1)
  | Ok r1 =>
      if (resolve_status r1 =? 404)%Z
      then match reply (resolve_server w) (events st1) p with
           | Raise e => run st = (Raise e, st2)
           | Ok r2 => after_resolve icon_id r2 st2 (run st)
           end
      else after_resolve icon_id r1 st1 (run st)
  end.

(** ** More of what the properties speak of *)





(** What a label of the input file looks like. *)
Definition is_label (l : str) : Prop :=
  l <> [] /\ strip l = l /\ startswith l (lit "#") = false.

(** The [try] statement of one label in the batch-by-label [main]: the
    guarded block and its [except Exception] clause. *)
Definition guarded_attempt (w : world) (a : Scripts.args) (token label q : str)
  (dest_path : path) (counts : Z * Z) : M (Z * Z) :=
  try_except (Scripts.attempt w a token label q dest_path counts)
    (fun e => print stderr (LabelERR label q e) ;;;
              ret (fst counts, snd counts + 1)%Z).

(** One turn of [for label in labels] once the file name is computed: the
    destination path, the [try] statement and the sleep. *)
Definition turn_after_filename {U : Unicode} (w : world) (a : Scripts.args)
  (token : str) (out_dir : path) (label filename_base : str) (counts : Z * Z)
  : M (Z * Z) :=
  let q := Scripts.normalize_query label in
  let ext := match Scripts.format a with svg => lit "svg" | png => lit "png" end in
  let dest_path := path_join out_dir (filename_base ++ lit "." ++ ext) in
  counts <- guarded_attempt w a token label q dest_path counts ;;
  delay <- lift (Scripts.args_delay a) ;;
  ms <- lift Scripts.name_ms ;;
  sleep (Z.max 0 (delay - ms / 1000) * 1000) ;;;
  ret counts.

(** A line about this label: OK, MISS or ERR. *)
Definition label_line (label q : str) (dest : path) (l : line) : Prop :=
  (exists n, l = LabelOK label q n dest)
  \/ (exists reason, l = LabelMISS label q reason)
  \/ (exists e, l = LabelERR label q e).

(** The computation prints nothing. *)
Definition quiet {A} (m : M A) : Prop :=
  forall st, printed (events (snd (m st))) = printed (events st).

(** The records of the pages that the search requests among the events
    [todo] (oldest first, after [hist]) were answered with, in order. *)
Fixpoint collected (w : world) (hist : list event) (todo : list event)
  : list icon_record :=
  match todo with
  | [] => []
  | EvRequest r :: rest =>
      items_of (page_of (reply (search_server w) hist r))
      ++ collected w (EvRequest r :: hist) rest
  | e :: rest => collected w (e :: hist) rest
  end.

(** A status that [raise_for_status] lets through. *)
Definition status_passes (status : Z) : Prop := (status < 400 \/ 600 <= status)%Z.

(** Between [st] and [st'] the file [dest] was written with [body]. *)
Definition wrote (st st' : state) (dest : path) (body : bytes) : Prop :=
  contents st' = (dest, body) :: contents st.

(** The last two things done before [st'] were the fetch of the asset at
    [u], without credentials, and the writing of its chunks to [dest]. *)
Definition wrote_asset (w : world) (u : str) (st st' : state) (dest : path) : Prop :=
  exists asset hist,
    events st' = EvWrite dest :: EvRequest (asset_fetch u) :: hist
    /\ asset_server w hist (asset_fetch u) = Some asset
    /\ status_passes (asset_status asset)
    /\ wrote st st' dest (List.concat (asset_chunks asset)).

(** The error of a download reply that is neither a URL nor an image. *)
Definition unexpected (icon_id : Z) (r : resolve_response) : exn :=
  RuntimeError (UnexpectedDownload icon_id (firstn 500 (resolve_text r))).

(** The success lines of the batch-by-query script among some lines, each
    as its identifier and its path. *)
Definition ok_lines (ls : list line) : list (Z * path) :=
  flat_map (fun l => match l with QueryOK n dest => [(n, dest)] | _ => [] end) ls.

(** A success line that tells the truth: its identifier is that of one of
    the results, its path is [<id>.svg] or [<id>.png] in the output
    directory, and a file is among those [written] at that path. *)
Definition truthful (out_dir : path) (results : list icon_record)
  (written : list (path * bytes)) (ok : Z * path) : Prop :=
  exists item ext body,
    In item results /\ get_id item = Some (fst ok)
    /\ (ext = lit "svg" \/ ext = lit "png")
    /\ snd ok = path_join out_dir (str_of_int (fst ok) ++ lit "." ++ ext)
    /\ In (snd ok, body) written.

(** ** Sample worlds *)

Definition empty_state : state := {| events := []; dirs := []; contents := [] |}.

(** A search record with the identifier [n]. *)
Definition record_of_id (n : Z) : icon_record :=
  {| id := IdInt n; other_keys := true |}.

(** A search record with a name and no identifier. *)
Definition record_without_id : icon_record :=
  {| id := IdAbsent; other_keys := true |}.

(** The empty record. *)
Definition empty_record : icon_record :=
  {| id := IdAbsent; other_keys := false |}.

Definition token_reply : auth_response :=
  {| auth_status := 200; auth_text := []; auth_json := Some (Some (lit "T1")) |}.

Definition search_reply (items : list icon_record) (pg tot : Z) : search_response :=
  {| search_status := 200; search_text := [];
     search_json :=
       Some {| data := Some items;
               meta := Some {| page := Some pg; total := Some tot; count := None |} |} |}.

(** A direct binary reply with the given status and content type. *)
Definition binary_reply (status : Z) (content_type : string) : resolve_response :=
  {| resolve_status := status; resolve_text := lit "body";
     resolve_content := [80; 78; 71]%N;
     resolve_content_type := Some (lit content_type);
     resolve_url := None |}.

(** A reply with the URL of the asset. *)
Definition envelope_reply (u : string) : resolve_response :=
  {| resolve_status := 200; resolve_text := [];
     resolve_content := [];
     resolve_content_type := Some (lit "application/json");
     resolve_url := Some (lit u) |}.

(** A world with the key set, a server that authenticates, and the given
    search and download replies and label lines. *)
Definition mock (search : list event -> request -> option search_response)
  (resolve : list event -> request -> option resolve_response)
  (lines : list str) : world :=
  {| env_api_key := Some (lit "KEY");
     auth_server := fun _ _ => Some token_reply;
     search_server := search;
     resolve_server := resolve;
     asset_server := fun _ _ =>
       Some {| asset_status := 200; asset_chunks := [[80; 78; 71]%N] |};
     read_lines := fun _ => Some lines |}.

Definition label_args (fmt : image_format) : Scripts.args :=
  {| Scripts.file := lit "queries.txt"; Scripts.format := fmt;
     Scripts.size := 128; Scripts.order := priority;
     Scripts.out := [lit "icons"]; Scripts.delay_ms := 200 |}.

Definition query_args (fmt : image_format) (n : Z) : Workflows.args :=
  {| Workflows.query := lit "api"; Workflows.limit := n;
     Workflows.format := fmt; Workflows.size := 128;
     Workflows.order := priority; Workflows.out := [lit "icons"] |}.

(** A world with the key set and a server that refuses it. *)
Definition denied_world : world :=
  {| env_api_key := Some (lit "KEY");
     auth_server := fun _ _ =>
       Some {| auth_status := 401; auth_text := lit "denied"; auth_json := None |};
     search_server := fun _ _ => None;
     resolve_server := fun _ _ => None;
     asset_server := fun _ _ => None;
     read_lines := fun _ => Some [lit "guitar"] |}.

(** A world whose label file has the one line [guitar]. *)
Definition guitar_world : world :=
  mock (fun _ _ => Some (search_reply [record_of_id 11] 1 1))
       (fun _ _ => Some (envelope_reply "https://cdn/11.png"))
       [lit "guitar"].

(** A world whose search finds one record, which has no identifier. *)
Definition nameless_world : world :=
  mock (fun _ _ => Some (search_reply [record_without_id] 1 1))
       (fun _ _ => None) [lit "guitar"].

(** A world whose download endpoint answers with the image itself, a PNG. *)
Definition direct_png_world : world :=
  mock (fun _ _ => Some (search_reply [record_of_id 11] 1 1))
       (fun _ _ => Some (binary_reply 200 "image/png")) [].

(** The state after the directory [icons] is made and the key is accepted. *)
Definition authenticated_state : state :=
  {| events := [EvRequest (auth_request (lit "KEY")); EvMkdir [lit "icons"]];
     dirs := [[lit "icons"]];
     contents := [] |}.

(** A world whose search endpoint fails. *)
Definition failing_search_world : world :=
  mock (fun _ _ => Some {| search_status := 500; search_text := lit "oops";
                           search_json := None |})
       (fun _ _ => None) [].

(** A world whose download endpoint answers 200 with a page of text. *)
Definition html_world : world :=
  mock (fun _ _ => Some (search_reply [record_of_id 11] 1 1))
       (fun _ _ => Some (binary_reply 200 "text/html")) [].

(** A world whose search has two records on its one page. *)
Definition two_records_world : world :=
  mock (fun _ _ => Some (search_reply [record_of_id 11; record_of_id 22] 1 2))
       (fun _ _ => Some (binary_reply 200 "image/png")) [].

(** A world whose label file has a comment and a blank line. *)
Definition comments_world : world :=
  mock (fun _ _ => Some (search_reply [record_of_id 11] 1 1))
       (fun _ _ => Some (envelope_reply "https://cdn/11.png"))
       [lit "# icons"; lit "  "].

(** A world whose label file cannot be opened. *)
Definition unreadable_world : world :=
  {| env_api_key := Some (lit "KEY");
     auth_server := fun _ _ => Some token_reply;
     search_server := fun _ _ => None;
     resolve_server := fun _ _ => None;
     asset_server := fun _ _ => None;
     read_lines := fun _ => None |}.

(* ================================================================== *)
(** * Text: stripping, substitution, containment *)

Lemma str_eqb_nil (s : str) : str_eqb s [] = true <-> s = [].
Proof.
  unfold str_eqb. destruct (list_eq_dec N.eq_dec s []); split; congruence.
Qed.

Lemma sub_runs_Forall (P : N -> Prop) cls repl :
  Forall P repl ->
  forall s b, Forall (fun c => cls c = false -> P c) s ->
              Forall P (sub_runs cls repl b s).
Proof.
  intros Hrepl s. induction s as [|c s IH]; intros b Hs; simpl.
  - constructor.
  - inversion Hs as [|? ? Hc Hs']; subst.
    destruct (cls c) eqn:E.
    + apply Forall_app. split.
      * destruct b; [constructor | exact Hrepl].
      * now apply IH.
    + constructor; [now apply Hc | now apply IH].
Qed.

Lemma lstrip_by_Forall (P : N -> Prop) p s :
  Forall P s -> Forall P (lstrip_by p s).
Proof.
  induction s as [|c s IH]; simpl; intros H; [assumption|].
  destruct (p c); [apply IH; now inversion H | assumption].
Qed.

Lemma rstrip_by_Forall (P : N -> Prop) p s :
  Forall P s -> Forall P (rstrip_by p s).
Proof.
  intros H. unfold rstrip_by.
  apply Forall_rev, lstrip_by_Forall, Forall_rev, H.
Qed.

(** What is left after stripping from the left does not start with a
    stripped code point. *)
Lemma lstrip_by_head p s :
  match lstrip_by p s with [] => True | c :: _ => p c = false end.
Proof.
  induction s as [|c s IH]; simpl; [exact I|].
  destruct (p c) eqn:E; [exact IH | exact E].
Qed.

Lemma lstrip_by_app p a b :
  lstrip_by p (a ++ b) =
  match lstrip_by p a with [] => lstrip_by p b | r => r ++ b end.
Proof.
  induction a as [|c a IH]; simpl; [reflexivity|].
  destruct (p c); [exact IH | reflexivity].
Qed.

(** Stripping from the right, by recursion from the left. *)
Lemma rstrip_by_cons p c s :
  rstrip_by p (c :: s) =
  match rstrip_by p s with
  | [] => if p c then [] else [c]
  | r => c :: r
  end.
Proof.
  unfold rstrip_by. simpl rev. rewrite lstrip_by_app.
  destruct (lstrip_by p (rev s)) as [|d r]; simpl.
  - destruct (p c); reflexivity.
  - rewrite rev_app_distr. simpl.
    destruct (rev r ++ [d]) eqn:E; [|reflexivity].
    now apply app_eq_nil in E as [_ E].
Qed.

(** Stripping from the right keeps a head that is not stripped. *)
Lemma rstrip_by_head p s :
  match s with [] => True | c :: _ => p c = false end ->
  match rstrip_by p s with [] => True | c :: _ => p c = false end.
Proof.
  destruct s as [|c s]; intros H; [exact I|].
  rewrite rstrip_by_cons.
  destruct (rstrip_by p s); [rewrite H|]; exact H.
Qed.

Lemma rstrip_by_last p s :
  match rev (rstrip_by p s) with [] => True | c :: _ => p c = false end.
Proof.
  unfold rstrip_by. rewrite rev_involutive. apply lstrip_by_head.
Qed.

Lemma startswith_cons_false s c :
  match s with [] => True | d :: _ => (d =? c)%N = false end ->
  s <> [] -> startswith s [c] = false.
Proof.
  destruct s as [|d s]; intros H Hne; [congruence|].
  simpl. rewrite N.eqb_sym, H. reflexivity.
Qed.

Lemma startswith_self_app p x : startswith (p ++ x) p = true.
Proof.
  induction p as [|a p IH]; simpl; [now destruct x|].
  now rewrite N.eqb_refl, IH.
Qed.

Lemma contains_app_l sub x : contains sub (sub ++ x) = true.
Proof.
  pose proof (startswith_self_app sub x) as H.
  destruct (sub ++ x); cbn [contains]; rewrite H; reflexivity.
Qed.

Lemma contains_cons sub c s : contains sub s = true -> contains sub (c :: s) = true.
Proof.
  intros H. simpl. rewrite H. apply orb_true_r.
Qed.

Lemma contains_app_r sub a s : contains sub s = true -> contains sub (a ++ s) = true.
Proof.
  intros H. induction a as [|c a IH]; [exact H|]. now apply contains_cons.
Qed.

(** Replacing the occurrences of [old] in a text that has one leaves a text
    that has [new]. *)
Lemma replace_from_contains old new s :
  old <> [] ->
  contains old s = true -> contains new (replace_from old new 0 s) = true.
Proof.
  intros Hold. induction s as [|c s IH]; intros H.
  - destruct old as [|a old]; [congruence | discriminate H].
  - cbn [replace_from].
    destruct (startswith (c :: s) old) eqn:E.
    + apply contains_app_l.
    + apply contains_cons, IH.
      cbn [contains] in H. rewrite E in H. exact H.
Qed.

Lemma replace_contains old new s :
  contains old s = true -> contains new (replace old new s) = true.
Proof.
  intros H. destruct old as [|a old].
  - apply contains_app_l.
  - apply replace_from_contains; [discriminate | exact H].
Qed.

Lemma lstrip_by_all p s : Forall (fun c => p c = true) s -> lstrip_by p s = [].
Proof.
  induction 1 as [|c s Hc _ IH]; simpl; [reflexivity|]. now rewrite Hc.
Qed.

(** [s.strip("-")] neither starts nor ends with a hyphen. *)
Lemma strip_hyphen_ends s :
  let r := strip_chars (lit "-") s in
  r <> [] -> startswith r (lit "-") = false /\ endswith r (lit "-") = false.
Proof.
  intros r Hne. subst r. unfold strip_chars in *.
  set (p := fun c : N => existsb (N.eqb c) (lit "-")) in *.
  assert (Hp : forall c, p c = false -> (c =? 45)%N = false).
  { intros c. unfold p. simpl. now rewrite orb_false_r. }
  split.
  - apply startswith_cons_false; [|exact Hne].
    pose proof (rstrip_by_head p (lstrip_by p s) (lstrip_by_head p s)) as H.
    destruct (rstrip_by p (lstrip_by p s)); [exact I | now apply Hp].
  - unfold endswith. apply startswith_cons_false.
    + pose proof (rstrip_by_last p (lstrip_by p s)) as H.
      destruct (rev (rstrip_by p (lstrip_by p s))); [exact I | now apply Hp].
    + intros E. apply Hne. apply (f_equal (@rev N)) in E.
      now rewrite rev_involutive in E.
Qed.

Lemma strip_chars_Forall (P : N -> Prop) chars s :
  Forall P s -> Forall P (strip_chars chars s).
Proof.
  intros H. unfold strip_chars. now apply rstrip_by_Forall, lstrip_by_Forall.
Qed.

(* ================================================================== *)
(** * The file-name helper *)

(** The substitution without a subject string stops [safe_filename] of
    scripts/fetch_flaticon.py. *)
Lemma scripts_safe_filename_type_error (U : Unicode) (text : str) :
  Scripts.safe_filename text = Raise TypeError.
Proof. reflexivity. Qed.

(** C2, as the batch-by-label script has it: [safe_filename] of
    scripts/fetch_flaticon.py returns no file name for any input. Its call
    [re.sub(r"[./]+", "-")] gives [re.sub] no subject string, so every call
    of [safe_filename] ends in [TypeError]. *)
Theorem scripts_safe_filename_raises (U : Unicode) (text : str) :
  Scripts.safe_filename text = Raise TypeError
  /\ forall name, Scripts.safe_filename text <> Ok name.
Proof.
  unfold Scripts.safe_filename, re_sub_without_string. split; [reflexivity|].
  intros name. discriminate.
Qed.

Section WorkflowsSafeFilename.
Context {U : Unicode}.

Lemma workflows_collapsed_Forall text :
  Forall (fun c => filename_char c = true)
    (re_sub_plus is_hyphen (lit "-")
       (re_sub_plus (fun c => negb (filename_char c)) (lit "-") text)).
Proof.
  unfold re_sub_plus.
  apply sub_runs_Forall.
  - repeat constructor.
  - apply Forall_impl with (P := fun c => filename_char c = true); [tauto|].
    apply sub_runs_Forall.
    + repeat constructor.
    + apply Forall_forall. intros c _ H. now apply negb_false_iff in H.
Qed.

(** The file name of workflows/fetch_flaticon.py: for every input it is a
    non-empty text over [[a-z0-9._-]] that neither starts nor ends with a
    hyphen. *)
Theorem workflows_safe_filename_shape (text : str) :
  let r := Workflows.safe_filename text in
  matches_plus filename_char r = true
  /\ startswith r (lit "-") = false
  /\ endswith r (lit "-") = false.
Proof.
  unfold Workflows.safe_filename.
  set (t := re_sub_plus is_hyphen (lit "-") _).
  pose proof (strip_hyphen_ends t) as Hends.
  assert (HF : Forall (fun c => filename_char c = true) (strip_chars (lit "-") t)).
  { apply strip_chars_Forall. subst t. apply workflows_collapsed_Forall. }
  destruct (strip_chars (lit "-") t) as [|c r] eqn:E.
  - cbn [or_str]. repeat split; reflexivity.
  - cbn [or_str]. destruct Hends as [H1 H2]; [discriminate|].
    repeat split; try assumption.
    unfold matches_plus. apply andb_true_iff. split.
    + apply negb_true_iff. destruct (str_eqb (c :: r) []) eqn:F; [|reflexivity].
      apply str_eqb_nil in F. discriminate.
    + apply forallb_forall. intros x Hx.
      rewrite Forall_forall in HF. now apply HF.
Qed.

(** The file name of workflows/fetch_flaticon.py is ["icon"] when the
    trimmed, lower-cased input has no code point of [[a-z0-9._]]: when it is
    empty, or made of hyphens and of code points outside the class. *)
Theorem workflows_safe_filename_fallback (text : str) :
  forallb (fun c => negb (filename_char c) || is_hyphen c) (lower (strip text)) = true ->
  Workflows.safe_filename text = lit "icon".
Proof.
  intros H. unfold Workflows.safe_filename.
  set (t := re_sub_plus is_hyphen (lit "-") _).
  assert (HF : Forall (fun c => is_hyphen c = true) t).
  { subst t. unfold re_sub_plus. apply sub_runs_Forall.
    - repeat constructor.
    - apply Forall_impl with (P := fun c => is_hyphen c = true); [tauto|].
      apply sub_runs_Forall.
      + repeat constructor.
      + rewrite forallb_forall in H. apply Forall_forall. intros c Hc Hv.
        specialize (H c Hc). rewrite Hv in H. exact H. }
  unfold strip_chars. rewrite lstrip_by_all.
  - reflexivity.
  - apply Forall_impl with (2 := HF). intros c Hc. simpl.
    unfold is_hyphen, hyphen in Hc. now rewrite Hc.
Qed.

End WorkflowsSafeFilename.

Lemma workflows_safe_filename_fallback_witness :
  Workflows.safe_filename (U := ascii_text) (lit " !-?- ") = lit "icon".
Proof.
  apply (workflows_safe_filename_fallback (U := ascii_text)). reflexivity.
Defined.

(* ================================================================== *)
(** * The query normalizer *)

(** C6 fails as stated. The label ["japanesub category"] has the key of the
    rule ["sub category" -> "subcategory"], whose value does not contain its
    key; that rule fires, and then the later rule ["japanes" -> "japanese"]
    rewrites its result: the query is ["japaneseubcategory"], without
    ["subcategory"]. *)
Lemma normalize_query_rule_broken :
  In (lit "sub category", lit "subcategory") Scripts.fixes
  /\ contains (lit "sub category") (lit "subcategory") = false
  /\ contains (lit "sub category")
       (Scripts.initial_key (U := ascii_text) (lit "japanesub category")) = true
  /\ contains (lit "subcategory")
       (Scripts.normalize_query (U := ascii_text) (lit "japanesub category")) = false.
Proof.
  split; [do 3 right; left; reflexivity|].
  repeat split; vm_compute; reflexivity.
Qed.

Example normalize_query_label_lost :
  Scripts.normalize_query (U := ascii_text) (lit "japanesub category")
  = lit "japaneseubcategory".
Proof. vm_compute. reflexivity. Qed.

(** The other half fails too: the label ["sa 2 sa  2"] has the key of the
    rule ["sa 2" -> "sa2"], and the collapse of white space at the end makes
    that key anew. *)
Example normalize_query_key_recreated :
  Scripts.normalize_query (U := ascii_text) (lit "sa 2 sa  2") = lit "sa2 sa 2".
Proof. vm_compute. reflexivity. Qed.

(** C6, amended. For each rule [(k, v)] of the table such that [v] does not
    contain [k]: a label whose key (trimmed, lower-cased, dashes turned into
    hyphens) is exactly [k] is normalized to exactly [v]; and for any key
    that contains [k], the key right after that rule's turn in the loop
    contains [v]. *)
Theorem normalize_query_rule (U : Unicode) (k v label : str) :
  In (k, v) Scripts.fixes ->
  contains k v = false ->
  (Scripts.initial_key label = k -> Scripts.normalize_query label = v)
  /\ (forall key, contains k key = true ->
                  contains v (Scripts.apply_fix key (k, v)) = true).
Proof.
  intros Hin Hkv. split.
  - intros Hkey. unfold Scripts.normalize_query. rewrite Hkey. clear Hkey.
    unfold Scripts.fixes in Hin. simpl in Hin.
    repeat (destruct Hin as [Hin | Hin];
            [ injection Hin as <- <-;
              first [ discriminate Hkv | vm_compute; reflexivity ] | ]).
    contradiction.
  - intros key Hk. unfold Scripts.apply_fix. cbn [fst snd]. rewrite Hk.
    now apply replace_contains.
Qed.

Lemma normalize_query_rule_witness :
  Scripts.normalize_query (U := ascii_text) (lit "  E.Guitar ") = lit "electric guitar"
  /\ contains (lit "electric guitar")
       (Scripts.apply_fix (lit "bass e.guitar") (lit "e.guitar", lit "electric guitar"))
     = true.
Proof.
  assert (Hin : In (lit "e.guitar", lit "electric guitar") Scripts.fixes)
    by (left; reflexivity).
  destruct (normalize_query_rule ascii_text (lit "  E.Guitar ") Hin eq_refl)
    as [H1 H2].
  split; [apply H1; reflexivity | apply H2; reflexivity].
Defined.

(* ================================================================== *)
(** * The downloader *)


(** Unfolds the monad and its primitives. *)
Ltac run_monad :=
  cbv beta delta [bind ret raise lift send try_except print sleep
                  raise_for_status write_file Workflows.get_asset log].

(** One case split on what the goal or a hypothesis matches on. *)
Ltac break_match :=
  match goal with
  | H : (_, _) = (_, _) |- _ => injection H as ? ?; subst
  | H : context [match ?x with _ => _ end] |- _ => destruct x eqn:?
  | |- context [match ?x with _ => _ end] => destruct x eqn:?
  end; cbn [fst snd events dirs contents negb] in *.

Ltac crunch := repeat (cbv beta; break_match).

Ltac later_tail :=
  split; [ reflexivity | first [ left; reflexivity | right; eexists; reflexivity ] ].

(** Names the events that came after the last reply of the download
    endpoint. *)
Ltac later_events :=
  first [ exists (@nil event); later_tail | eexists [_]; later_tail
        | eexists [_; _]; later_tail | eexists [_; _; _]; later_tail ].

Lemma scripts_download_protocol w token icon_id fmt size dest st :
  resolve_protocol w token icon_id fmt size
    (Scripts.download_icon w token icon_id fmt size dest) st.
Proof.
  unfold resolve_protocol, Scripts.download_icon, query_style, path_style, after_resolve.
  run_monad. cbn [events dirs contents fst snd].
  destruct (reply (resolve_server w) (events st) _) as [r1|e]; [|reflexivity].
  destruct (resolve_status r1 =? 404)%Z eqn:E404.
  - cbn [events].
    destruct (reply (resolve_server w) _ _) as [r2|e]; [|reflexivity].
    destruct (resolve_status r2 =? 200)%Z eqn:E200; cbn [negb]; [|reflexivity].
    crunch; try discriminate; later_events.
  - destruct (resolve_status r1 =? 200)%Z eqn:E200; cbn [negb]; [|reflexivity].
    crunch; try discriminate; later_events.
Qed.

Lemma workflows_download_protocol w token icon_id fmt size dest st :
  resolve_protocol w token icon_id fmt size
    (Workflows.download_icon w token icon_id fmt size dest) st.
Proof.
  unfold resolve_protocol, Workflows.download_icon, query_style, path_style, after_resolve.
  run_monad. cbn [events dirs contents fst snd].
  destruct (reply (resolve_server w) (events st) _) as [r1|e]; [|reflexivity].
  destruct (resolve_status r1 =? 404)%Z eqn:E404.
  - cbn [events].
    destruct (reply (resolve_server w) _ _) as [r2|e]; [|reflexivity].
    destruct (resolve_status r2 =? 200)%Z eqn:E200; cbn [negb]; [|reflexivity].
    crunch; try discriminate; later_events.
  - destruct (resolve_status r1 =? 200)%Z eqn:E200; cbn [negb]; [|reflexivity].
    crunch; try discriminate; later_events.
Qed.

(** C3. In both scripts [download_icon] first sends the request with the
    format as a query parameter. Exactly when the reply to it has status 404
    it sends one more request to the download endpoint, with the format as a
    path segment after the same URL, no format parameter, and the same size
    parameter (present only for png, with a non-zero size). When the last of
    these replies has a status other than 200 the download ends there with
    the download error that carries the icon, that status and that body; the
    only request that can follow is the fetch of the asset, after a 200. *)
Theorem download_icon_resolve_order (w : world) (token : str) (icon_id : Z)
  (fmt : image_format) (size : Z) (st : state) :
  (forall dest, resolve_protocol w token icon_id fmt size
                  (Scripts.download_icon w token icon_id fmt size dest) st)
  /\ (forall dest, resolve_protocol w token icon_id fmt size
                     (Workflows.download_icon w token icon_id fmt size dest) st)
  /\ url (path_style token icon_id fmt size)
     = url (query_style token icon_id fmt size) ++ lit "/" ++ format_str fmt
  /\ params (query_style token icon_id fmt size)
     = (lit "format", PStr (format_str fmt)) :: params (path_style token icon_id fmt size)
  /\ params (path_style token icon_id fmt size)
     = match fmt with
       | png => if (size =? 0)%Z then [] else [(lit "size", PInt size)]
       | svg => []
       end.
Proof.
  split; [intros; apply scripts_download_protocol|].
  split; [intros; apply workflows_download_protocol|].
  split; [|split].
  - cbn [url query_style path_style get]. now rewrite <- !app_assoc.
  - reflexivity.
  - cbn [params path_style get]. unfold size_params.
    destruct fmt; [destruct (size =? 0)%Z|]; reflexivity.
Qed.

(* ================================================================== *)
(** * The searcher *)

Lemma len_app {A} (a b : list A) : len (a ++ b) = (len a + len b)%Z.
Proof. unfold len. rewrite length_app. lia. Qed.

Lemma len_cons_pos {A} (x : A) l : (0 < len (x :: l))%Z.
Proof. unfold len. simpl. lia. Qed.

Section Search.
Context (w : world) (token query : str) (order_by : order_mode) (limit : Z).
Open Scope Z_scope.

(** The loop never runs out of fuel that covers what is missing to the
    limit. *)
Lemma search_loop_total fuel : forall out pg st,
  (Z.to_nat (limit - len out) <= fuel)%nat ->
  Workflows.search_loop w fuel token query order_by limit out pg st <> None.
Proof.
  induction fuel as [|fuel IH]; intros out pg st Hfuel; cbn [Workflows.search_loop].
  - destruct (len out <? limit) eqn:E; [|discriminate].
    apply Z.ltb_lt in E. lia.
  - destruct (len out <? limit) eqn:E; [|discriminate].
    apply Z.ltb_lt in E.
    destruct (send _ _ st) as [[r|e] st1]; [|discriminate].
    destruct (negb _); [discriminate|].
    destruct (search_json r) as [payload|]; [|discriminate].
    destruct (match data payload with Some d => d | None => [] end) as [|i items] eqn:Ei;
      [discriminate|].
    destruct (_ || _); [discriminate|].
    apply IH. rewrite len_app. pose proof (len_cons_pos i items). lia.
Qed.

Lemma search_loop_paginates fuel : forall out pg st prev res st',
  Workflows.search_loop w fuel token query order_by limit out pg st = Some (res, st') ->
  exists new, events st' = new ++ events st
    /\ paginates w query limit (is_ok res) (events st) (len out) pg prev (rev new).
Proof.
  induction fuel as [|fuel IH]; intros out pg st prev res st' H;
    cbn [Workflows.search_loop] in H.
  - destruct (len out <? limit) eqn:E; [discriminate|].
    injection H as <- <-. exists []. split; [reflexivity|].
    cbn. intros _. left. apply Z.ltb_ge in E. exact E.
  - destruct (len out <? limit) eqn:E.
    2:{ injection H as <- <-. exists []. split; [reflexivity|].
        cbn. intros _. left. apply Z.ltb_ge in E. exact E. }
    apply Z.ltb_lt in E.
    unfold send in H.
    set (req := Workflows.search_request token query order_by limit out pg) in *.
    destruct (reply (search_server w) (events st) req) as [r|e] eqn:Er.
    2:{ injection H as <- <-. exists [EvRequest req]. split; [reflexivity|].
        cbn [rev app paginates]. rewrite Er. cbn.
        repeat split; try assumption; try discriminate.
        intros [r0 []]. }
    destruct (search_status r =? 200) eqn:Es; cbn [negb] in H.
    2:{ injection H as <- <-. exists [EvRequest req]. split; [reflexivity|].
        cbn [rev app paginates]. rewrite Er. cbn. rewrite Es.
        repeat split; try assumption; try discriminate.
        intros [r0 []]. }
    destruct (search_json r) as [payload|] eqn:Ej.
    2:{ injection H as <- <-. exists [EvRequest req]. split; [reflexivity|].
        cbn [rev app paginates]. rewrite Er. cbn. rewrite Es, Ej.
        repeat split; try assumption; try discriminate.
        intros [r0 []]. }
    set (its := match data payload with Some d => d | None => [] end) in *.
    assert (Hpg : page_of (reply (search_server w) (events st) req)
                  = Some (its, meta payload)).
    { rewrite Er. cbn. now rewrite Es, Ej. }
    clearbody its.
    destruct its as [|i items].
    { injection H as <- <-. exists [EvRequest req]. split; [reflexivity|].
      cbn [rev app paginates]. rewrite Hpg.
      repeat split; try assumption.
      - intros [r0 []].
      - intros _. right. exists [], (meta payload). split; [reflexivity|]. now left. }
    destruct (Workflows.last_page (Workflows.metadata_of (meta payload))) eqn:El;
      cbn [orb] in H.
    { injection H as <- <-. exists [EvRequest req]. split; [reflexivity|].
      cbn [rev app paginates]. rewrite Hpg.
      repeat split; try assumption.
      - intros [r0 []].
      - intros _. right. exists (i :: items), (meta payload).
        split; [reflexivity|]. now right. }
    destruct (len (i :: items) =? 0) eqn:E0.
    { pose proof (len_cons_pos i items). apply Z.eqb_eq in E0. lia. }
    apply (IH _ _ _ (Some (i :: items, meta payload))) in H.
    destruct H as (new & Hev & Hpag).
    exists (new ++ [EvSleep 200; EvRequest req]). split.
    + rewrite Hev. cbn. rewrite <- app_assoc. reflexivity.
    + rewrite rev_app_distr. cbn [rev app paginates]. rewrite Hpg.
      repeat split; try assumption.
      * intros _. exists (i :: items), (meta payload).
        repeat split; [discriminate | exact El].
      * cbn [items_of]. rewrite <- len_app. exact Hpag.
Qed.

Lemma slice_to_len {A} (l : list A) : len (slice_to limit l) <= Z.max 0 limit \/ limit < 0.
Proof.
  unfold slice_to. destruct (0 <=? limit) eqn:E.
  - left. apply Z.leb_le in E. unfold len.
    pose proof (firstn_le_length (Z.to_nat limit) l). lia.
  - right. apply Z.leb_gt in E. exact E.
Qed.

End Search.

(** C4. For every limit and every behaviour of the search server,
    [search_icons] ends (the loop never runs out of its [limit] turns), and
    its requests follow the pagination: each is sent only while fewer than
    [limit] records are accumulated, asks for [min(100, limit - accumulated)]
    items, and carries the page number 1, 2, 3, ... in order; another
    request follows only after a page that had items and whose metadata did
    not end the search, and a search that returns does so because the limit
    is reached, the last page was empty or its metadata ended the search.
    What it returns has at most [limit] records (none for a limit below 1). *)
Theorem search_icons_pagination (w : world) (token query : str)
  (order_by : order_mode) (limit : Z) (st : state) :
  let run := Workflows.search_icons w token query order_by limit st in
  Workflows.search_loop w (Z.to_nat limit) token query order_by limit [] 1%Z st <> None
  /\ (exists new, events (snd run) = new ++ events st
        /\ paginates w query limit (is_ok (fst run)) (events st) 0 1 None (rev new))
  /\ (forall out, fst run = Ok out -> (len out <= Z.max 0 limit)%Z).
Proof.
  intros run.
  assert (Htot : Workflows.search_loop w (Z.to_nat limit) token query order_by limit
                   [] 1%Z st <> None).
  { apply search_loop_total. unfold len. simpl. lia. }
  split; [exact Htot|].
  subst run. unfold Workflows.search_icons.
  destruct (Workflows.search_loop w (Z.to_nat limit) token query order_by limit [] 1%Z st)
    as [[[out|e] st']|] eqn:E; [| |congruence]; cbn [fst snd].
  - split.
    + apply search_loop_paginates with (prev := None) in E. exact E.
    + intros out' H. injection H as <-.
      destruct (slice_to_len limit out) as [Hle|Hneg]; [exact Hle|].
      destruct (Z.to_nat limit) eqn:En; [|lia].
      cbn [Workflows.search_loop] in E.
      replace (len [] <? limit)%Z with false in E
        by (symmetry; apply Z.ltb_ge; unfold len; simpl; lia).
      injection E as <- <-. unfold slice_to.
      destruct (0 <=? limit)%Z; rewrite firstn_nil; unfold len; simpl; lia.
  - split.
    + apply search_loop_paginates with (prev := None) in E. exact E.
    + discriminate.
Qed.

(** C5. In the searcher of the batch-by-query script, a turn of the loop
    that received a page with items ends the search when the page number of
    the metadata (1 when absent) is greater than or equal to its total (its
    count when the total is absent, 0 when both are): the total is compared
    as it is, not turned into a number of pages. The turn's request is the
    last one, whether or not [limit] records have been accumulated. *)
Theorem search_stops_when_page_reaches_total (w : world) (token query : str)
  (order_by : order_mode) (limit : Z) (out : list icon_record) (pg : Z)
  (st : state) (fuel : nat) (resp : search_response) (payload : search_payload)
  (item : icon_record) (items : list icon_record) :
  let req := Workflows.search_request token query order_by limit out pg in
  let meta := Workflows.metadata_of (meta payload) in
  (len out < limit)%Z ->
  search_server w (events st) req = Some resp ->
  search_status resp = 200%Z ->
  search_json resp = Some payload ->
  data payload = Some (item :: items) ->
  (Workflows.meta_page meta >= Workflows.meta_total meta)%Z ->
  Workflows.search_loop w (S fuel) token query order_by limit out pg st
  = Some (Ok (out ++ item :: items), log (EvRequest req) st).
Proof.
  intros req meta Hlt Hsrv Hst Hj Hd Hge.
  cbn [Workflows.search_loop].
  apply Z.ltb_lt in Hlt. rewrite Hlt.
  unfold send. fold req. unfold reply. rewrite Hsrv, Hst, Hj, Hd.
  cbn [Z.eqb negb Pos.eqb].
  fold meta. unfold Workflows.last_page.
  replace (Workflows.meta_page meta * 1 >=? Workflows.meta_total meta)%Z with true.
  - reflexivity.
  - symmetry. apply Z.geb_le. lia.
Qed.

(** Three records exist and the first page brings one of them, as page 3 of
    3: the search for ten ends there. *)
Lemma search_stops_when_page_reaches_total_witness :
  let w := mock (fun _ _ => Some (search_reply [record_of_id 11] 3 3))
                (fun _ _ => None) [] in
  Workflows.search_loop w 1 (lit "T1") (lit "api") priority 10 [] 1%Z empty_state
  = Some (Ok [record_of_id 11],
          log (EvRequest (Workflows.search_request (lit "T1") (lit "api")
                            priority 10 [] 1%Z)) empty_state).
Proof.
  intros w.
  apply (@search_stops_when_page_reaches_total w (lit "T1") (lit "api") priority
           10%Z [] 1%Z empty_state 0%nat (search_reply [record_of_id 11] 3 3)
           {| data := Some [record_of_id 11];
              meta := Some {| page := Some 3%Z; total := Some 3%Z; count := None |} |}
           (record_of_id 11) []);
    first [ reflexivity | discriminate ].
Defined.

(** The comparison is with the total, not with a number of pages: with 50
    records in all, 100 asked for per page and all 50 on page 1, page 1 is
    the only page there is, and yet page 2 is requested, since 1 < 50. *)
Example search_compares_page_with_total :
  let w := mock (fun hist _ =>
                   match hist with
                   | [] => Some (search_reply (repeat (record_of_id 7) 50) 1 50)
                   | _ => Some (search_reply [] 2 50)
                   end)
                (fun _ _ => None) [] in
  List.map params
    (requests_of (events (snd (Workflows.search_icons w (lit "T1") (lit "api")
                                 priority 200 empty_state))))
  = [ [(lit "q", PStr (lit "api")); (lit "limit", PInt 100); (lit "page", PInt 1)];
      [(lit "q", PStr (lit "api")); (lit "limit", PInt 100); (lit "page", PInt 2)] ].
Proof. vm_compute. reflexivity. Qed.

(* ================================================================== *)
(** * Which exceptions leave which part of a run *)

Lemma raises_only_weaken {A} (P Q : exn -> bool) (m : M A) :
  (forall e, P e = true -> Q e = true) -> raises_only P m -> raises_only Q m.
Proof.
  intros HPQ H st. specialize (H st). destruct (fst (m st)); auto.
Qed.

Lemma raises_only_bind {A B} P (m : M A) (k : A -> M B) :
  raises_only P m -> (forall a, raises_only P (k a)) -> raises_only P (bind m k).
Proof.
  intros Hm Hk st. unfold bind. specialize (Hm st).
  destruct (m st) as [[a|e] st1]; cbn [fst] in *.
  - apply Hk.
  - exact Hm.
Qed.

Lemma raises_only_ret {A} P (a : A) : raises_only P (ret a).
Proof. intros st. exact I. Qed.

Lemma raises_only_raise {A} (P : exn -> bool) e : P e = true -> raises_only P (@raise A e).
Proof. intros H st. exact H. Qed.

Lemma raises_only_lift {A} (P : exn -> bool) (r : result A) :
  match r with Raise e => P e = true | Ok _ => True end -> raises_only P (lift r).
Proof. intros H st. exact H. Qed.

Lemma raises_only_send {R} (P : exn -> bool) (server : list event -> request -> option R) req :
  P RequestException = true -> raises_only P (send server req).
Proof.
  intros H st. unfold send, reply. cbn [fst]. now destruct (server _ _).
Qed.

Lemma raises_only_print P to l : raises_only P (print to l).
Proof. intros st. exact I. Qed.

Lemma raises_only_sleep P ms : raises_only P (sleep ms).
Proof. intros st. exact I. Qed.

Lemma raises_only_write (P : exn -> bool) p c : P OSError = true -> raises_only P (write_file p c).
Proof. intros H st. unfold write_file. now destruct (_ && _). Qed.

Lemma raises_only_mkdir (P : exn -> bool) p : P OSError = true -> raises_only P (mkdir_parents p).
Proof. intros H st. unfold mkdir_parents. now destruct (existsb _ _). Qed.

Lemma raises_only_open (P : exn -> bool) w name :
  P OSError = true -> raises_only P (open_lines w name).
Proof. intros H st. unfold open_lines. now destruct (read_lines _ _). Qed.

Lemma raises_only_status (P : exn -> bool) s :
  (forall c, P (HTTPError c) = true) -> raises_only P (raise_for_status s).
Proof.
  intros H st. unfold raise_for_status. destruct (_ && _); [apply H | exact I].
Qed.

Lemma raises_only_try {A} P (body : M A) handler :
  raises_only is_Exception body ->
  (forall e, raises_only P (handler e)) ->
  raises_only P (try_except body handler).
Proof.
  intros Hb Hh st. unfold try_except. specialize (Hb st).
  destruct (body st) as [[a|e] st1]; cbn [fst] in *; [exact I|].
  rewrite Hb. apply Hh.
Qed.

Lemma benign_is_Exception e : benign e = true -> is_Exception e = true.
Proof. unfold benign. intros H. now apply andb_true_iff in H. Qed.

(** Goes through a computation, one construct at a time. *)
Ltac raises_step :=
  match goal with
  | |- raises_only _ (ret _) => apply raises_only_ret
  | |- raises_only _ (print _ _) => apply raises_only_print
  | |- raises_only _ (sleep _) => apply raises_only_sleep
  | |- raises_only _ (raise _) => apply raises_only_raise; reflexivity
  | |- raises_only _ (send _ _) => apply raises_only_send; reflexivity
  | |- raises_only _ (write_file _ _) => apply raises_only_write; reflexivity
  | |- raises_only _ (mkdir_parents _) => apply raises_only_mkdir; reflexivity
  | |- raises_only _ (open_lines _ _) => apply raises_only_open; reflexivity
  | |- raises_only _ (raise_for_status _) => apply raises_only_status; reflexivity
  | |- raises_only _ (bind _ _) => apply raises_only_bind; [ | intros ? ]
  | |- raises_only _ (match ?x with _ => _ end) => destruct x
  end.

Ltac raises := repeat raises_step.

Section Runs.
Context {U : Unicode} (w : world).

Lemma scripts_get_token_no_exit api_key :
  raises_only is_Exception (Scripts.get_token w api_key).
Proof.
  unfold Scripts.get_token. raises.
  apply raises_only_lift. unfold json_of. now destruct (auth_json _).
Qed.

Lemma workflows_get_token_no_exit api_key :
  raises_only is_Exception (Workflows.get_token w api_key).
Proof.
  unfold Workflows.get_token. raises.
  apply raises_only_lift. unfold json_of. now destruct (auth_json _).
Qed.

Lemma scripts_download_benign token icon_id fmt size dest :
  raises_only benign (Scripts.download_icon w token icon_id fmt size dest).
Proof. unfold Scripts.download_icon. raises. Qed.

Lemma workflows_download_benign token icon_id fmt size dest :
  raises_only benign (Workflows.download_icon w token icon_id fmt size dest).
Proof. unfold Workflows.download_icon, Workflows.get_asset. raises. Qed.

Lemma search_first_icon_benign token q order_by :
  raises_only benign (Scripts.search_first_icon w token q order_by).
Proof.
  unfold Scripts.search_first_icon. raises.
  apply raises_only_lift. unfold json_of. now destruct (search_json _).
Qed.

Lemma attempt_benign a token label q dest counts :
  raises_only benign (Scripts.attempt w a token label q dest counts).
Proof.
  unfold Scripts.attempt. destruct counts as [s f]. raises.
  - apply search_first_icon_benign.
  - apply scripts_download_benign.
Qed.

Lemma process_label_benign a token out_dir label counts :
  raises_only benign (Scripts.process_label w a token out_dir label counts).
Proof.
  unfold Scripts.process_label. raises.
  - apply raises_only_lift. rewrite scripts_safe_filename_type_error. reflexivity.
  - apply raises_only_try; [|intros; raises].
    eapply raises_only_weaken; [apply benign_is_Exception | apply attempt_benign].
  - apply raises_only_lift. reflexivity.
  - apply raises_only_lift. reflexivity.
Qed.

Lemma for_each_label_benign a token out_dir labels : forall counts,
  raises_only benign (Scripts.for_each_label w a token out_dir labels counts).
Proof.
  induction labels as [|label rest IH]; intros counts; cbn [Scripts.for_each_label].
  - apply raises_only_ret.
  - apply raises_only_bind; [apply process_label_benign | exact IH].
Qed.

Lemma process_item_never a token out_dir item downloaded :
  raises_only never (Workflows.process_item w a token out_dir item downloaded).
Proof.
  unfold Workflows.process_item. raises.
  apply raises_only_try; [|intros; raises].
  raises. eapply raises_only_weaken; [apply benign_is_Exception | apply workflows_download_benign].
Qed.

Lemma for_each_item_never a token out_dir results : forall downloaded,
  raises_only never (Workflows.for_each_item w a token out_dir results downloaded).
Proof.
  induction results as [|item rest IH]; intros d; cbn [Workflows.for_each_item].
  - apply raises_only_ret.
  - apply raises_only_bind; [apply process_item_never | exact IH].
Qed.

Lemma search_loop_benign token query order_by limit fuel : forall out pg st res st',
  Workflows.search_loop w fuel token query order_by limit out pg st = Some (res, st') ->
  match res with Raise e => benign e = true | Ok _ => True end.
Proof.
  induction fuel as [|fuel IH]; intros out pg st res st' H;
    cbn [Workflows.search_loop] in H.
  - destruct (len out <? limit)%Z; [discriminate|]. now injection H as <- <-.
  - destruct (len out <? limit)%Z; [|now injection H as <- <-].
    unfold send, reply in H.
    destruct (search_server w _ _) as [r|]; [|now injection H as <- <-].
    destruct (negb _); [now injection H as <- <-|].
    destruct (search_json r) as [payload|]; [|now injection H as <- <-].
    destruct (match data payload with Some d => d | None => [] end);
      [now injection H as <- <-|].
    destruct (_ || _); [now injection H as <- <-|].
    now apply IH in H.
Qed.

Lemma search_icons_benign token query order_by limit :
  raises_only benign (Workflows.search_icons w token query order_by limit).
Proof.
  intros st. unfold Workflows.search_icons.
  destruct (Workflows.search_loop _ _ _ _ _ _ _ _ _) as [[[out|e] st']|] eqn:E;
    cbn [fst]; trivial.
  now apply search_loop_benign in E.
Qed.
End Runs.

(* ================================================================== *)
(** * The drivers: start-up *)

Lemma is_exception_exit_status {A} (r : result A) :
  match r with Raise e => is_Exception e = true | Ok _ => True end ->
  exit_status r <> 2%Z.
Proof.
  destruct r as [a|e]; cbn; [discriminate|].
  destruct e; cbn; intros H; discriminate.
Qed.

Lemma benign_not_auth e : benign e = true -> is_auth_error e = false.
Proof.
  unfold benign. intros H. apply andb_true_iff in H as [_ H].
  now apply negb_true_iff in H.
Qed.

Lemma path_eqb_refl p : path_eqb p p = true.
Proof.
  unfold path_eqb. destruct (list_eq_dec (list_eq_dec N.eq_dec) p p); congruence.
Qed.

Lemma self_in_parents (p : path) : p <> [] -> In p (parents_and_self p).
Proof.
  induction p as [|c p IH]; [congruence|]. intros _. cbn [parents_and_self].
  destruct p as [|d p]; [now left|].
  right. apply in_map. apply IH. discriminate.
Qed.

Lemma parents_nonempty (p q : path) : In q (parents_and_self p) -> q <> [].
Proof.
  destruct p as [|c p]; cbn [parents_and_self]; [contradiction|].
  intros [<-|H]; [discriminate|].
  apply in_map_iff in H as (x & <- & _). discriminate.
Qed.

Lemma is_dir_after_mkdir evs p ds cs q :
  In q (parents_and_self p) ->
  is_dir {| events := evs; dirs := parents_and_self p ++ ds; contents := cs |} q = true.
Proof.
  intros Hin. pose proof (parents_nonempty _ Hin) as Hne.
  unfold is_dir. destruct q as [|c q]; [congruence|]. cbn [dirs].
  apply existsb_exists. exists (c :: q). split.
  - apply in_or_app. now left.
  - apply path_eqb_refl.
Qed.

(** An outcome whose exception is not the one looked for. *)
Ltac not_this Hauth :=
  let H := fresh in
  intros H; injection H as ? ?; subst; discriminate Hauth.

Section StartUp.
Context {U : Unicode} (w : world).

Lemma scripts_main_with_key a c k :
  env_api_key w = Some (c :: k) -> raises_only is_Exception (Scripts.main w a).
Proof.
  intros Hk. unfold Scripts.main. rewrite Hk. raises.
  - apply scripts_get_token_no_exit.
  - eapply raises_only_weaken; [apply benign_is_Exception | apply for_each_label_benign].
Qed.

Lemma workflows_main_with_key a c k :
  env_api_key w = Some (c :: k) -> raises_only is_Exception (Workflows.main w a).
Proof.
  intros Hk. unfold Workflows.main. rewrite Hk. raises.
  - apply workflows_get_token_no_exit.
  - eapply raises_only_weaken; [apply benign_is_Exception | apply search_icons_benign].
  - eapply raises_only_weaken; [|apply for_each_item_never]. discriminate.
Qed.

Lemma key_missing_cases :
  key_missing w \/ exists c k, env_api_key w = Some (c :: k).
Proof.
  unfold key_missing. destruct (env_api_key w) as [[|c k]|]; eauto.
Qed.

(** Once [parse_args] has returned: when FLATICON_API_KEY is unset or empty
    the run prints the notice on stderr and exits with status 2, having done
    nothing else; and a run with the key set ends with status 0, or with
    status 1 through an uncaught exception. *)
Lemma exit_2_after_parsing (sa : Scripts.args) (wa : Workflows.args) (st : state) :
  (key_missing w ->
     Scripts.main w sa st = (Raise (SystemExit 2), log (EvPrint stderr KeyNotSet) st)
     /\ Workflows.main w wa st = (Raise (SystemExit 2), log (EvPrint stderr KeyNotSet) st))
  /\ (exit_status (fst (Scripts.main w sa st)) = 2%Z <-> key_missing w)
  /\ (exit_status (fst (Workflows.main w wa st)) = 2%Z <-> key_missing w).
Proof.
  assert (Hmiss : key_missing w ->
     Scripts.main w sa st = (Raise (SystemExit 2), log (EvPrint stderr KeyNotSet) st)
     /\ Workflows.main w wa st = (Raise (SystemExit 2), log (EvPrint stderr KeyNotSet) st)).
  { intros [H|H]; unfold Scripts.main, Workflows.main; rewrite H; split; reflexivity. }
  split; [exact Hmiss|].
  split; split.
  - intros H. destruct key_missing_cases as [Hm|(c & k & Hk)]; [exact Hm|].
    exfalso. revert H. apply is_exception_exit_status.
    exact (@scripts_main_with_key sa c k Hk st).
  - intros Hm. destruct (Hmiss Hm) as [-> _]. reflexivity.
  - intros H. destruct key_missing_cases as [Hm|(c & k & Hk)]; [exact Hm|].
    exfalso. revert H. apply is_exception_exit_status.
    exact (@workflows_main_with_key wa c k Hk st).
  - intros Hm. destruct (Hmiss Hm) as [_ ->]. reflexivity.
Qed.

(** C8, amended. In both scripts, when FLATICON_API_KEY is unset or empty
    and the argument parser has accepted the command line, the program
    prints the notice on stderr and exits with status 2, having done
    nothing else. Status 2 is not reserved for that case: the program exits
    with status 2 exactly when the parser does not accept the command line,
    or accepts it and the key is unset or empty. In both cases all that the
    program has done is to print one text on stderr: no request is sent and
    no directory made. Every other run ends with status 0 or, through an
    uncaught exception, with status 1. *)
Theorem missing_key_exit_status (scl : parsed Scripts.args)
  (wcl : parsed Workflows.args) (st : state) :
  (key_missing w -> forall sa wa,
     Scripts.main_cli w (Namespace sa) st
     = (Raise (SystemExit 2), log (EvPrint stderr KeyNotSet) st)
     /\ Workflows.main_cli w (Namespace wa) st
        = (Raise (SystemExit 2), log (EvPrint stderr KeyNotSet) st))
  /\ (exit_status (fst (Scripts.main_cli w scl st)) = 2%Z
      <-> scl = UsageError \/ (exists a, scl = Namespace a) /\ key_missing w)
  /\ (exit_status (fst (Workflows.main_cli w wcl st)) = 2%Z
      <-> wcl = UsageError \/ (exists a, wcl = Namespace a) /\ key_missing w)
  /\ (exit_status (fst (Scripts.main_cli w scl st)) = 2%Z ->
      exists l, snd (Scripts.main_cli w scl st) = log (EvPrint stderr l) st)
  /\ (exit_status (fst (Workflows.main_cli w wcl st)) = 2%Z ->
      exists l, snd (Workflows.main_cli w wcl st) = log (EvPrint stderr l) st)
  /\ (In (exit_status (fst (Scripts.main_cli w scl st))) [0; 1; 2]%Z
      /\ In (exit_status (fst (Workflows.main_cli w wcl st))) [0; 1; 2]%Z).
Proof.
  assert (Hs : forall a, exit_status (fst (Scripts.main w a st)) = 2%Z <-> key_missing w).
  { intros a. apply (exit_2_after_parsing a (query_args png 0) st). }
  assert (Hw : forall a, exit_status (fst (Workflows.main w a st)) = 2%Z <-> key_missing w).
  { intros a. apply (exit_2_after_parsing (label_args png) a st). }
  assert (Hmiss : key_missing w -> forall sa wa,
     Scripts.main w sa st = (Raise (SystemExit 2), log (EvPrint stderr KeyNotSet) st)
     /\ Workflows.main w wa st = (Raise (SystemExit 2), log (EvPrint stderr KeyNotSet) st)).
  { intros Hm sa wa. now apply exit_2_after_parsing. }
  split; [|split; [|split; [|split; [|split]]]].
  - intros Hm sa wa. cbn [Scripts.main_cli Workflows.main_cli]. now apply Hmiss.
  - split.
    + destruct scl as [a| |]; cbn [Scripts.main_cli].
      * intros H. right. split; [now exists a | now apply (Hs a)].
      * intros _. now left.
      * discriminate.
    + intros [->|[(a & ->) Hm]]; [reflexivity|]. cbn [Scripts.main_cli].
      now apply Hs.
  - split.
    + destruct wcl as [a| |]; cbn [Workflows.main_cli].
      * intros H. right. split; [now exists a | now apply (Hw a)].
      * intros _. now left.
      * discriminate.
    + intros [->|[(a & ->) Hm]]; [reflexivity|]. cbn [Workflows.main_cli].
      now apply Hw.
  - destruct scl as [a| |]; cbn [Scripts.main_cli].
    + intros H. apply Hs in H.
      destruct (Hmiss H a (query_args png 0)) as [-> _]. now exists KeyNotSet.
    + intros _. now exists UsageMessage.
    + discriminate.
  - destruct wcl as [a| |]; cbn [Workflows.main_cli].
    + intros H. apply Hw in H.
      destruct (Hmiss H (label_args png) a) as [_ ->]. now exists KeyNotSet.
    + intros _. now exists UsageMessage.
    + discriminate.
  - split.
    + destruct scl as [a| |]; cbn [Scripts.main_cli]; [|cbn; tauto|cbn; tauto].
      destruct key_missing_cases as [Hm|(c & k & Hk)].
      * destruct (Hmiss Hm a (query_args png 0)) as [-> _]. cbn. tauto.
      * pose proof (@scripts_main_with_key a c k Hk st) as Hr.
        destruct (fst (Scripts.main w a st)) as [[]|e]; [cbn; tauto|].
        destruct e; try discriminate Hr; cbn; tauto.
    + destruct wcl as [a| |]; cbn [Workflows.main_cli]; [|cbn; tauto|cbn; tauto].
      destruct key_missing_cases as [Hm|(c & k & Hk)].
      * destruct (Hmiss Hm (label_args png) a) as [_ ->]. cbn. tauto.
      * pose proof (@workflows_main_with_key a c k Hk st) as Hr.
        destruct (fst (Workflows.main w a st)) as [[]|e]; [cbn; tauto|].
        destruct e; try discriminate Hr; cbn; tauto.
Qed.

Lemma stopped_after_token (a_out : path) api_key st :
  api_key <> [] ->
  env_api_key w = Some api_key ->
  existsb (is_file st) (parents_and_self a_out) = false ->
  stopped_at_authentication w a_out st
    {| events := EvRequest (auth_request api_key) :: EvMkdir a_out :: events st;
       dirs := parents_and_self a_out ++ dirs st;
       contents := contents st |}.
Proof.
  intros Hne Hk Hmk. exists api_key. cbn [events contents].
  repeat split; try assumption.
  - destruct a_out as [|c p]; [reflexivity|].
    apply is_dir_after_mkdir, self_in_parents. discriminate.
  - apply Forall_forall. intros q Hq. now apply is_dir_after_mkdir.
Qed.

(** C10. In both scripts, a run that ends with an authentication error (a
    refused key, or a reply without a token) has done two things, in this
    order: it made the output directory with its parents, then it sent the
    authentication request. So no file is written, and the output directory
    and its parents exist when the run ends. *)
Theorem directory_made_before_authentication (sa : Scripts.args)
  (wa : Workflows.args) (st : state) (e : exn) :
  is_auth_error e = true ->
  (fst (Scripts.main w sa st) = Raise e ->
   stopped_at_authentication w (Scripts.out sa) st (snd (Scripts.main w sa st)))
  /\ (fst (Workflows.main w wa st) = Raise e ->
      stopped_at_authentication w (Workflows.out wa) st (snd (Workflows.main w wa st))).
Proof.
  intros Hauth. split.
  - destruct (Scripts.main w sa st) as [res st'] eqn:Hm. cbn [fst snd]. intros ->.
    revert Hm. unfold Scripts.main.
    destruct (env_api_key w) as [[|c k]|] eqn:Hk; try (cbn; not_this Hauth).
    unfold bind at 1. unfold mkdir_parents.
    destruct (existsb (is_file st) (parents_and_self (Scripts.out sa))) eqn:Hmk;
      [not_this Hauth|].
    set (st1 := {| events := EvMkdir (Scripts.out sa) :: events st;
                   dirs := parents_and_self (Scripts.out sa) ++ dirs st;
                   contents := contents st |}).
    unfold bind at 1.
    destruct (Scripts.get_token w (c :: k) st1) as [[token|e'] st2] eqn:Ht.
    + cbv beta. intros H. exfalso.
      match type of H with ?m st2 = _ =>
        assert (Hb : raises_only benign m) end.
      { raises. eapply for_each_label_benign. }
      specialize (Hb st2). rewrite H in Hb.
      apply benign_not_auth in Hb. cbn [fst] in Hb. congruence.
    + intros H. injection H as -> ->.
      revert Ht. unfold Scripts.get_token. run_monad. unfold reply.
      fold (auth_request (c :: k)).
      destruct (auth_server w _ _) as [resp|]; [|not_this Hauth].
      destruct (negb _).
      * intros H. injection H as _ <-. subst st1. cbn [events dirs contents].
        apply stopped_after_token; [discriminate | exact Hk | exact Hmk].
      * unfold json_of. destruct (auth_json resp) as [[[|t ts]|]|]; cbn;
          intros H; injection H as H1 H2; subst;
          try discriminate Hauth;
          cbn [events dirs contents];
          apply stopped_after_token; solve [discriminate | assumption].
  - destruct (Workflows.main w wa st) as [res st'] eqn:Hm. cbn [fst snd]. intros ->.
    revert Hm. unfold Workflows.main.
    destruct (env_api_key w) as [[|c k]|] eqn:Hk; try (cbn; not_this Hauth).
    unfold bind at 1. unfold mkdir_parents.
    destruct (existsb (is_file st) (parents_and_self (Workflows.out wa))) eqn:Hmk;
      [not_this Hauth|].
    set (st1 := {| events := EvMkdir (Workflows.out wa) :: events st;
                   dirs := parents_and_self (Workflows.out wa) ++ dirs st;
                   contents := contents st |}).
    unfold bind at 1.
    destruct (Workflows.get_token w (c :: k) st1) as [[token|e'] st2] eqn:Ht.
    + cbv beta. intros H. exfalso.
      match type of H with ?m st2 = _ =>
        assert (Hb : raises_only benign m) end.
      { raises.
        - apply search_icons_benign.
        - eapply raises_only_weaken; [|apply for_each_item_never]. discriminate. }
      specialize (Hb st2). rewrite H in Hb.
      apply benign_not_auth in Hb. cbn [fst] in Hb. congruence.
    + intros H. injection H as -> ->.
      revert Ht. unfold Workflows.get_token. run_monad. unfold reply.
      fold (auth_request (c :: k)).
      destruct (auth_server w _ _) as [resp|]; [|not_this Hauth].
      destruct (negb _).
      * intros H. injection H as _ <-. subst st1. cbn [events dirs contents].
        apply stopped_after_token; [discriminate | exact Hk | exact Hmk].
      * unfold json_of. destruct (auth_json resp) as [[[|t ts]|]|]; cbn;
          intros H; injection H as H1 H2; subst;
          try discriminate Hauth;
          cbn [events dirs contents];
          apply stopped_after_token; solve [discriminate | assumption].
Qed.

End StartUp.

(** With a key that the server refuses with 401, both scripts end as the
    theorem says. *)
Lemma directory_made_before_authentication_witness :
  stopped_at_authentication denied_world [lit "icons"] empty_state
    (snd (Scripts.main (U := ascii_text) denied_world (label_args png) empty_state))
  /\ stopped_at_authentication denied_world [lit "icons"] empty_state
       (snd (Workflows.main denied_world (query_args png 10) empty_state)).
Proof.
  destruct (@directory_made_before_authentication ascii_text denied_world
              (label_args png) (query_args png 10) empty_state
              (RuntimeError (AuthFailed 401 (lit "denied"))) eq_refl) as [H1 H2].
  split; [apply H1 | apply H2]; reflexivity.
Defined.

(** C8 fails as stated. The batch-by-label script is run without [--file]
    and the batch-by-query script without [--query], the options that lines
    138 and 122 declare as required; FLATICON_API_KEY is set, to a key that
    the server accepts. [parse_args] does not accept the command line: both
    programs print the usage message and exit with status 2, the status of
    the missing key, before they read the key. *)
Lemma usage_error_exit_status :
  ~ key_missing guitar_world
  /\ Scripts.main_cli (U := ascii_text) guitar_world UsageError empty_state
     = (Raise (SystemExit 2), log (EvPrint stderr UsageMessage) empty_state)
  /\ Workflows.main_cli guitar_world UsageError empty_state
     = (Raise (SystemExit 2), log (EvPrint stderr UsageMessage) empty_state)
  /\ exit_status (@Raise unit (SystemExit 2)) = 2%Z.
Proof.
  split; [|repeat split].
  intros [H|H]; discriminate H.
Qed.

Example missing_key_run :
  let w := {| env_api_key := None;
              auth_server := fun _ _ => Some token_reply;
              search_server := fun _ _ => None;
              resolve_server := fun _ _ => None;
              asset_server := fun _ _ => None;
              read_lines := fun _ => None |} in
  Workflows.main w (query_args png 10) empty_state
  = (Raise (SystemExit 2),
     {| events := [EvPrint stderr KeyNotSet]; dirs := []; contents := [] |}).
Proof. reflexivity. Qed.

(* ================================================================== *)
(** * The drivers: the loop over the items *)

Section LabelDriver.
Context {U : Unicode} (w : world).

(** C1, as the batch-by-label script has it: with the key accepted and at
    least one label in the file, the run ends with [TypeError] in the state
    it had right after the authentication. The first label's file name is
    computed outside the [try], by [safe_filename], which raises; so no
    label is searched for, nothing is printed, and the final tally never
    appears. *)
Theorem scripts_main_stops_at_first_label (a : Scripts.args) (st st0 st1 : state)
  (api_key token : str) (lines : list str) (label : str) (rest : list str) :
  env_api_key w = Some api_key ->
  api_key <> [] ->
  mkdir_parents (Scripts.out a) st = (Ok tt, st0) ->
  Scripts.get_token w api_key st0 = (Ok token, st1) ->
  read_lines w (Scripts.file a) = Some lines ->
  Scripts.read_labels lines = label :: rest ->
  Scripts.main w a st = (Raise TypeError, st1).
Proof.
  intros Hk Hne Hmk Ht Hl Hlab. unfold Scripts.main. rewrite Hk.
  destruct api_key as [|c k]; [congruence|].
  unfold bind at 1. rewrite Hmk.
  unfold bind at 1. rewrite Ht.
  unfold bind at 1. unfold open_lines. rewrite Hl, Hlab.
  cbn [Scripts.for_each_label]. unfold bind at 1, Scripts.process_label.
  unfold bind at 1. rewrite scripts_safe_filename_type_error. reflexivity.
Qed.

(** C7, amended. A search record without a usable identifier (absent, null
    or 0): the batch-by-query script passes over it in silence, the turn of
    the loop leaves the counter and the whole state as they were and the
    loop goes on; in the batch-by-label script the guarded block that finds
    such a record first for its label adds one to the failures and prints a
    MISS line with the label and the query. The reason of that line is
    "missing id", except for the empty record, which has neither an
    identifier nor any other key: the block takes it for no result at all,
    and the reason is "no results". *)
Theorem record_without_id_handling (sa : Scripts.args) (wa : Workflows.args)
  (token : str) (out_dir : path) (label q : str) (dest : path) (counts : Z * Z)
  (downloaded : Z) (item : icon_record) (others : list icon_record)
  (resp : search_response) (payload : search_payload) (st : state) :
  id_falsy (get_id item) = true ->
  Workflows.process_item w wa token out_dir item downloaded st = (Ok downloaded, st)
  /\ (search_server w (events st) (first_icon_request token q (Scripts.order sa)) = Some resp ->
      search_status resp = 200%Z ->
      search_json resp = Some payload ->
      data payload = Some (item :: others) ->
      Scripts.attempt w sa token label q dest counts st
      = (Ok (fst counts, (snd counts + 1)%Z),
         log (EvPrint stderr
                (LabelMISS label q (if record_truthy item then MissingId else NoResults)))
           (log (EvRequest (first_icon_request token q (Scripts.order sa))) st))).
Proof.
  intros Hid. split.
  - unfold Workflows.process_item. unfold id_falsy in Hid.
    destruct (get_id item) as [n|]; [|reflexivity]. now rewrite Hid.
  - intros Hsrv Hst Hj Hd.
    unfold Scripts.attempt. destruct counts as [s f].
    unfold bind at 1. unfold Scripts.search_first_icon.
    fold (first_icon_request token q (Scripts.order sa)).
    run_monad. unfold reply. rewrite Hsrv, Hst. cbn [Z.eqb Pos.eqb negb].
    unfold json_of. rewrite Hj, Hd.
    destruct (record_truthy item); [|reflexivity].
    unfold id_falsy in Hid.
    destruct (get_id item) as [n|]; [rewrite Hid|]; reflexivity.
Qed.

End LabelDriver.

(** The label file has the one line [guitar]: the run ends with [TypeError]
    after the authentication request, its only request, and prints
    nothing. *)
Lemma scripts_main_stops_at_first_label_witness :
  Scripts.main (U := ascii_text) guitar_world (label_args png) empty_state
  = (Raise TypeError, authenticated_state).
Proof.
  apply (@scripts_main_stops_at_first_label ascii_text guitar_world (label_args png)
           empty_state
           {| events := [EvMkdir [lit "icons"]]; dirs := [[lit "icons"]]; contents := [] |}
           authenticated_state (lit "KEY") (lit "T1") [lit "guitar"] (lit "guitar") []);
    first [ reflexivity | discriminate ].
Defined.

(** C7 fails as stated for the batch-by-query script. Its search finds one
    record, which has no identifier: the run prints the number of results
    and the final count and nothing else, so the record is not logged; and
    the tally counts downloads only, so nothing is counted as a failure. *)
Lemma workflows_record_without_id_unreported :
  fst (Workflows.main nameless_world (query_args png 10) empty_state) = Ok tt
  /\ printed (events (snd (Workflows.main nameless_world (query_args png 10) empty_state)))
     = [QueryFound 1 10; QueryDone 0 [lit "icons"]].
Proof. split; vm_compute; reflexivity. Qed.

Lemma record_without_id_handling_witness :
  Workflows.process_item nameless_world (query_args png 10) (lit "T1") [lit "icons"]
    record_without_id 0 empty_state = (Ok 0%Z, empty_state)
  /\ Scripts.attempt nameless_world (label_args png) (lit "T1") (lit "Guitar")
       (lit "guitar") [lit "icons"; lit "guitar.png"] (0, 0)%Z empty_state
     = (Ok (0, 1)%Z,
        log (EvPrint stderr (LabelMISS (lit "Guitar") (lit "guitar") MissingId))
          (log (EvRequest (first_icon_request (lit "T1") (lit "guitar") priority))
             empty_state)).
Proof.
  destruct (@record_without_id_handling nameless_world (label_args png) (query_args png 10)
              (lit "T1") [lit "icons"] (lit "Guitar") (lit "guitar")
              [lit "icons"; lit "guitar.png"] (0, 0)%Z 0%Z record_without_id []
              (search_reply [record_without_id] 1 1)
              {| data := Some [record_without_id];
                 meta := Some {| page := Some 1%Z; total := Some 1%Z; count := None |} |}
              empty_state eq_refl) as [H1 H2].
  split; [exact H1 | apply H2; reflexivity].
Defined.

(** The search of a label finds the empty record first: the line says that
    there was no result. *)
Example empty_record_is_no_result :
  let w := mock (fun _ _ => Some (search_reply [empty_record] 1 1))
                (fun _ _ => None) [lit "guitar"] in
  Scripts.attempt w (label_args png) (lit "T1") (lit "Guitar")
    (lit "guitar") [lit "icons"; lit "guitar.png"] (0, 0)%Z empty_state
  = (Ok (0, 1)%Z,
     log (EvPrint stderr (LabelMISS (lit "Guitar") (lit "guitar") NoResults))
       (log (EvRequest (first_icon_request (lit "T1") (lit "guitar") priority))
          empty_state)).
Proof. reflexivity. Qed.

(* ================================================================== *)
(** * The files a download writes *)

Section Downloads.
Context (w : world).


End Downloads.



(* ================================================================== *)
(** * The batch-by-query driver goes through every result *)

(** Every run that follows the protocol has sent the first request. *)
Lemma protocol_first_request {A} w token icon_id fmt size (run : M A) st :
  resolve_protocol w token icon_id fmt size run st ->
  exists new, events (snd (run st))
              = new ++ EvRequest (query_style token icon_id fmt size) :: events st.
Proof.
  unfold resolve_protocol, after_resolve.
  destruct (reply (resolve_server w) (events st) _) as [r1|e].
  - destruct (resolve_status r1 =? 404)%Z.
    + destruct (reply (resolve_server w) _ _) as [r2|e].
      * destruct (resolve_status r2 =? 200)%Z.
        -- intros (later & -> & _).
           exists (later ++ [EvRequest (path_style token icon_id fmt size)]).
           cbn. now rewrite <- app_assoc.
        -- intros ->. now exists [EvRequest (path_style token icon_id fmt size)].
      * intros ->. now exists [EvRequest (path_style token icon_id fmt size)].
    + destruct (resolve_status r1 =? 200)%Z.
      * intros (later & -> & _). now exists later.
      * intros ->. now exists [].
  - intros ->. now exists [].
Qed.

Section Items.
Context (w : world) (a : Workflows.args) (token : str) (out_dir : path).

(** One turn of the loop over the results ends without an exception, moves
    the counter by at most one, and has sent the download request of an item
    that has an identifier. *)
Lemma process_item_attempts item d st :
  let run := Workflows.process_item w a token out_dir item d st in
  exists d' new,
    fst run = Ok d'
    /\ events (snd run) = new ++ events st
    /\ (d <= d' <= d + 1)%Z
    /\ (forall n, get_id item = Some n -> n <> 0%Z ->
        In (download_attempt token (Workflows.format a) (Workflows.size a) n) new).
Proof.
  unfold Workflows.process_item.
  destruct (get_id item) as [n|].
  2:{ exists d, []. repeat split; try lia; discriminate. }
  destruct (n =? 0)%Z eqn:En.
  { exists d, []. repeat split; try lia.
    intros n' H. injection H as <-. apply Z.eqb_eq in En. congruence. }
  pose proof (workflows_download_protocol w token n (Workflows.format a)
                (Workflows.size a) out_dir st) as Hp.
  apply protocol_first_request in Hp as (new & Hnew).
  pose proof (workflows_download_benign w token n (Workflows.format a)
                (Workflows.size a) out_dir st) as Hb.
  run_monad.
  destruct (Workflows.download_icon w token n (Workflows.format a)
              (Workflows.size a) out_dir st) as [[dest|e] st1];
    cbn [fst snd] in *.
  - exists (d + 1)%Z,
      (EvSleep 150 :: EvPrint stdout (QueryOK n dest)
         :: new ++ [download_attempt token (Workflows.format a) (Workflows.size a) n]).
    cbn [events fst snd]. rewrite Hnew. repeat split; try lia.
    + cbn. now rewrite <- app_assoc.
    + intros n' H _. injection H as <-. right. right. apply in_or_app. right. now left.
  - apply benign_is_Exception in Hb. rewrite Hb.
    exists d,
      (EvSleep 150 :: EvPrint stderr (QueryFail n e)
         :: new ++ [download_attempt token (Workflows.format a) (Workflows.size a) n]).
    cbn [events fst snd]. rewrite Hnew. repeat split; try lia.
    + cbn. now rewrite <- app_assoc.
    + intros n' H _. injection H as <-. right. right. apply in_or_app. right. now left.
Qed.

Lemma for_each_item_attempts results : forall d st,
  let run := Workflows.for_each_item w a token out_dir results d st in
  exists d' new,
    fst run = Ok d'
    /\ events (snd run) = new ++ events st
    /\ (d <= d' <= d + len results)%Z
    /\ (forall item n, In item results -> get_id item = Some n -> n <> 0%Z ->
        In (download_attempt token (Workflows.format a) (Workflows.size a) n) new).
Proof.
  induction results as [|item rest IH]; intros d st; cbn [Workflows.for_each_item].
  - exists d, []. unfold len. cbn. repeat split; try lia.
  - destruct (process_item_attempts item d st) as (d1 & new1 & H1 & He1 & Hd1 & Ha1).
    unfold bind.
    destruct (Workflows.process_item w a token out_dir item d st) as [r1 st1].
    cbn [fst snd] in *. subst r1.
    destruct (IH d1 st1) as (d2 & new2 & H2 & He2 & Hd2 & Ha2).
    exists d2, (new2 ++ new1). repeat split.
    + exact H2.
    + rewrite He2, He1. now rewrite app_assoc.
    + lia.
    + unfold len in *. cbn [List.length]. lia.
    + intros it n [<-|Hin] Hid Hn; apply in_or_app.
      * right. now apply Ha1.
      * left. now apply (Ha2 it).
Qed.
End Items.

Section QueryDriver.
Context (w : world).

(** The batch-by-query script, once the key is accepted and the search has
    returned: whatever the downloads do, the run ends without an exception;
    the download request of every result that has an identifier is sent;
    and the last thing the run does is to print the final count, which is
    at most the number of results. *)
Theorem workflows_main_attempts_every_item (a : Workflows.args)
  (st st0 st1 st2 : state) (api_key token : str) (results : list icon_record) :
  env_api_key w = Some api_key ->
  api_key <> [] ->
  mkdir_parents (Workflows.out a) st = (Ok tt, st0) ->
  Workflows.get_token w api_key st0 = (Ok token, st1) ->
  Workflows.search_icons w token (Workflows.query a) (Workflows.order a)
    (Workflows.limit a) st1 = (Ok results, st2) ->
  exists downloaded new,
    fst (Workflows.main w a st) = Ok tt
    /\ events (snd (Workflows.main w a st))
       = EvPrint stdout (QueryDone downloaded (Workflows.out a)) :: new
         ++ EvPrint stdout (QueryFound (List.length results) (Workflows.limit a))
         :: events st2
    /\ (0 <= downloaded <= len results)%Z
    /\ (forall item n, In item results -> get_id item = Some n -> n <> 0%Z ->
        In (EvRequest (query_style token n (Workflows.format a) (Workflows.size a))) new).
Proof.
  intros Hk Hne Hmk Ht Hs.
  destruct (Workflows.main w a st) as [res st'] eqn:Hm. cbn [fst snd].
  revert Hm. unfold Workflows.main. rewrite Hk.
  destruct api_key as [|c k]; [congruence|].
  unfold bind at 1. rewrite Hmk.
  unfold bind at 1. rewrite Ht.
  unfold bind at 1. rewrite Hs.
  unfold bind at 1. unfold print at 1.
  set (st3 := log _ st2).
  destruct (for_each_item_attempts w a token (Workflows.out a) results 0%Z st3)
    as (d & new & H1 & He & Hd & Ha).
  unfold bind.
  destruct (Workflows.for_each_item w a token (Workflows.out a) results 0%Z st3)
    as [r st4].
  cbn [fst snd] in *. subst r. unfold print.
  intros Hm. injection Hm as <- <-.
  exists d, new. cbn [events log]. rewrite He.
  repeat split; try lia. exact Ha.
Qed.
End QueryDriver.

(** One result, downloaded from a direct reply: the run ends with the count
    of one. *)
Lemma workflows_main_attempts_every_item_witness :
  exists downloaded new,
    fst (Workflows.main direct_png_world (query_args png 10) empty_state) = Ok tt
    /\ events (snd (Workflows.main direct_png_world (query_args png 10) empty_state))
       = EvPrint stdout (QueryDone downloaded [lit "icons"]) :: new
         ++ EvPrint stdout (QueryFound 1 10)
         :: [EvRequest (Workflows.search_request (lit "T1") (lit "api") priority 10 [] 1);
             EvRequest (auth_request (lit "KEY")); EvMkdir [lit "icons"]]
    /\ (0 <= downloaded <= 1)%Z
    /\ (forall item n, In item [record_of_id 11] -> get_id item = Some n -> n <> 0%Z ->
        In (EvRequest (query_style (lit "T1") n png 128)) new).
Proof.
  apply (@workflows_main_attempts_every_item direct_png_world (query_args png 10)
           empty_state
           {| events := [EvMkdir [lit "icons"]]; dirs := [[lit "icons"]]; contents := [] |}
           authenticated_state
           {| events := [EvRequest (Workflows.search_request (lit "T1") (lit "api")
                                      priority 10 [] 1);
                         EvRequest (auth_request (lit "KEY")); EvMkdir [lit "icons"]];
              dirs := [[lit "icons"]]; contents := [] |}
           (lit "KEY") (lit "T1") [record_of_id 11]);
    first [ reflexivity | discriminate ].
Defined.

(** The run of the specification's end-to-end test: two results, 11 and 22;
    the download of 11 is answered with the URL of the asset and the one of
    22 with the image itself. Two files are written and counted. *)
Example two_icons_run :
  let w := mock (fun _ _ => Some (search_reply [record_of_id 11; record_of_id 22] 1 2))
                (fun _ r =>
                   if str_eqb (url r) (url (query_style (lit "T1") 11 png 128))
                   then Some (envelope_reply "https://cdn/11.png")
                   else Some (binary_reply 200 "image/png")) [] in
  let run := Workflows.main w (query_args png 2) empty_state in
  fst run = Ok tt
  /\ printed (events (snd run))
     = [QueryFound 2 2;
        QueryOK 11 [lit "icons"; lit "11.png"];
        QueryOK 22 [lit "icons"; lit "22.png"];
        QueryDone 2 [lit "icons"]]
  /\ List.map fst (contents (snd run))
     = [[lit "icons"; lit "22.png"]; [lit "icons"; lit "11.png"]].
Proof. repeat split; vm_compute; reflexivity. Qed.

(* ================================================================== *)
(** * The shape of a normalized query, and the labels of the input file *)






Lemma lstrip_by_fixed p s :
  match s with [] => True | c :: _ => p c = false end -> lstrip_by p s = s.
Proof. destruct s as [|c s]; intros H; cbn; [reflexivity | now rewrite H]. Qed.

(** Trimming twice is trimming once. *)
Lemma strip_idempotent s : strip (strip s) = strip s.
Proof.
  unfold strip at 1. set (t := strip s).
  assert (H1 : match t with [] => True | c :: _ => isspace c = false end).
  { subst t. unfold strip. apply rstrip_by_head, lstrip_by_head. }
  assert (H2 : match rev t with [] => True | c :: _ => isspace c = false end).
  { subst t. unfold strip. apply rstrip_by_last. }
  rewrite (@lstrip_by_fixed isspace t H1).
  unfold rstrip_by. rewrite (@lstrip_by_fixed isspace (rev t) H2).
  apply rev_involutive.
Qed.




Section NormalizedQuery.
Context {U : Unicode}.




End NormalizedQuery.

(** The labels read from the input file. Each line contributes on its own
    and in its place: its trimmed text when that is neither empty nor a
    comment (a text starting with [#]), and nothing otherwise. So every
    label is non-empty, trimmed, and not a comment; the order of the lines
    is kept, and a line that occurs twice gives its label twice. *)
Theorem read_labels_lines (before after : list str) (line : str) :
  Scripts.read_labels (before ++ line :: after)
  = Scripts.read_labels before
    ++ (if str_eqb (strip line) [] || startswith (strip line) (lit "#")
        then [] else [strip line])
    ++ Scripts.read_labels after
  /\ Forall is_label (Scripts.read_labels (before ++ line :: after)).
Proof.
  split.
  - unfold Scripts.read_labels. rewrite map_app, filter_app. f_equal.
    cbn [List.map filter].
    destruct (str_eqb (strip line) []); cbn [negb andb orb app]; [reflexivity|].
    destruct (startswith (strip line) (lit "#")); reflexivity.
  - unfold Scripts.read_labels. apply Forall_forall. intros l Hl.
    apply filter_In in Hl as [Hin Hkeep].
    apply in_map_iff in Hin as (x & <- & _).
    apply andb_true_iff in Hkeep as [H1 H2].
    repeat split.
    + intros E. rewrite E in H1. discriminate.
    + apply strip_idempotent.
    + now apply negb_true_iff in H2.
Qed.

(* ================================================================== *)
(** * Authentication and the search for one icon *)

Lemma printed_cons e evs :
  printed (e :: evs)
  = printed evs ++ match e with EvPrint _ l => [l] | _ => [] end.
Proof.
  unfold printed. cbn [flat_map]. rewrite rev_app_distr.
  destruct e; cbn; try rewrite app_nil_r; reflexivity.
Qed.

Section Outcomes.
Context (w : world).

Lemma get_token_same api_key :
  Workflows.get_token w api_key = Scripts.get_token w api_key.
Proof. reflexivity. Qed.

(** Authentication sends its request and leaves the rest of the state. *)
Lemma get_token_state api_key st :
  snd (Scripts.get_token w api_key st) = log (EvRequest (auth_request api_key)) st.
Proof.
  unfold Scripts.get_token. fold (auth_request api_key). run_monad.
  destruct (reply (auth_server w) (events st) (auth_request api_key)) as [resp|];
    [|reflexivity].
  destruct (negb _); [reflexivity|].
  unfold json_of. destruct (auth_json resp) as [[[|c t]|]|]; reflexivity.
Qed.

Lemma get_token_refused api_key st resp :
  auth_server w (events st) (auth_request api_key) = Some resp ->
  auth_status resp <> 200%Z ->
  fst (Scripts.get_token w api_key st)
  = Raise (RuntimeError (AuthFailed (auth_status resp) (auth_text resp))).
Proof.
  intros Hsrv Hst. unfold Scripts.get_token. fold (auth_request api_key). run_monad.
  unfold reply. cbn [events]. rewrite Hsrv.
  apply Z.eqb_neq in Hst. now rewrite Hst.
Qed.

(** [get_token] is the same function in the two scripts. It sends one
    request, the authentication request with the key, and does nothing
    else. It returns a token only when the server answered 200 with a JSON
    object whose [token] is that text, and the token it returns is never
    empty. Every answer with another status raises the "Auth failed" error
    that carries the status and the body. *)
Theorem get_token_outcome (api_key : str) (st : state) :
  let run := Scripts.get_token w api_key st in
  Workflows.get_token w api_key st = run
  /\ snd run = log (EvRequest (auth_request api_key)) st
  /\ (forall token, fst run = Ok token ->
        token <> []
        /\ exists resp, auth_server w (events st) (auth_request api_key) = Some resp
                        /\ auth_status resp = 200%Z
                        /\ auth_json resp = Some (Some token))
  /\ (forall resp, auth_server w (events st) (auth_request api_key) = Some resp ->
        auth_status resp <> 200%Z ->
        fst run = Raise (RuntimeError (AuthFailed (auth_status resp) (auth_text resp)))).
Proof.
  unfold Scripts.get_token, Workflows.get_token. fold (auth_request api_key).
  run_monad. unfold reply, json_of. cbn [events].
  destruct (auth_server w (events st) (auth_request api_key)) as [resp|];
    cbn [fst snd].
  2:{ split; [reflexivity|]. split; [reflexivity|]. split; intros; discriminate. }
  destruct (auth_status resp =? 200)%Z eqn:Es; cbn [negb].
  - apply Z.eqb_eq in Es.
    destruct (auth_json resp) as [[[|c t]|]|] eqn:Ej; cbn [fst snd];
      (split; [reflexivity|]); (split; [reflexivity|]);
      (split; [|intros r Hr Hne; injection Hr as <-; congruence]);
      intros token H; try discriminate H.
    injection H as <-. split; [discriminate|]. exists resp. auto.
  - apply Z.eqb_neq in Es.
    split; [reflexivity|]. split; [reflexivity|]. split.
    + intros token H. discriminate H.
    + intros r H _. now injection H as <-.
Qed.

(** A key that the server refuses ends either script at once: with the key
    set and the output directory made, an answer to the authentication
    request with a status other than 200 makes [main] raise the "Auth
    failed" error, uncaught, right after that one request. Nothing is
    printed, no file is read or written, and the exit status is 1. *)
Theorem refused_key_is_fatal {U : Unicode} (sa : Scripts.args) (wa : Workflows.args)
  (api_key : str) (st st0 : state) (resp : auth_response) :
  env_api_key w = Some api_key ->
  api_key <> [] ->
  auth_server w (events st0) (auth_request api_key) = Some resp ->
  auth_status resp <> 200%Z ->
  let failure := RuntimeError (AuthFailed (auth_status resp) (auth_text resp)) in
  (mkdir_parents (Scripts.out sa) st = (Ok tt, st0) ->
   Scripts.main w sa st = (Raise failure, log (EvRequest (auth_request api_key)) st0))
  /\ (mkdir_parents (Workflows.out wa) st = (Ok tt, st0) ->
      Workflows.main w wa st = (Raise failure, log (EvRequest (auth_request api_key)) st0))
  /\ exit_status (@Raise unit failure) = 1%Z.
Proof.
  intros Hk Hne Hsrv Hst failure.
  pose proof (get_token_state api_key st0) as Hstate.
  pose proof (@get_token_refused api_key st0 resp Hsrv Hst) as Hfail.
  destruct api_key as [|c k]; [congruence|].
  split; [|split; [|reflexivity]].
  - intros Hmk. unfold Scripts.main. rewrite Hk.
    unfold bind at 1. rewrite Hmk. unfold bind at 1.
    destruct (Scripts.get_token w (c :: k) st0) as [r s1].
    cbn [fst snd] in *. now subst.
  - intros Hmk. unfold Workflows.main. rewrite Hk.
    unfold bind at 1. rewrite Hmk. unfold bind at 1. rewrite get_token_same.
    destruct (Scripts.get_token w (c :: k) st0) as [r s1].
    cbn [fst snd] in *. now subst.
Qed.

(** [search_first_icon] of the batch-by-label script sends one request,
    for one record of the first page, and does nothing else. An answer
    with a status other than 200 raises the "Search error" with the status
    and the body. An answer of 200 gives the first record of [data], and
    [None] when [data] is absent or empty. *)
Theorem search_first_icon_outcome (token q : str) (order_by : order_mode) (st : state) :
  let run := Scripts.search_first_icon w token q order_by st in
  let req := first_icon_request token q order_by in
  snd run = log (EvRequest req) st
  /\ (forall resp, search_server w (events st) req = Some resp ->
        search_status resp <> 200%Z ->
        fst run = Raise (RuntimeError (SearchError (search_status resp) (search_text resp))))
  /\ (forall resp payload, search_server w (events st) req = Some resp ->
        search_status resp = 200%Z ->
        search_json resp = Some payload ->
        fst run = Ok (match data payload with
                      | Some (first :: _) => Some first
                      | _ => None
                      end)).
Proof.
  unfold Scripts.search_first_icon. fold (first_icon_request token q order_by).
  run_monad. unfold reply, json_of. cbn [events].
  destruct (search_server w (events st) (first_icon_request token q order_by))
    as [resp|]; cbn [fst snd].
  2:{ split; [reflexivity|]. split; intros; discriminate. }
  destruct (search_status resp =? 200)%Z eqn:Es; cbn [negb].
  - apply Z.eqb_eq in Es.
    destruct (search_json resp) as [payload|] eqn:Ej; cbn [fst snd];
      (split; [reflexivity|]);
      (split; [intros r Hr Hne; injection Hr as <-; congruence|]);
      intros r p Hr _ Hp; injection Hr as <-; [|congruence].
    rewrite Ej in Hp. injection Hp as <-.
    destruct (data payload) as [[|first rest]|]; reflexivity.
  - apply Z.eqb_neq in Es. split; [reflexivity|]. split.
    + intros r Hr _. now injection Hr as <-.
    + intros r p Hr Hok. injection Hr as <-. congruence.
Qed.

End Outcomes.

(** The key [KEY] is answered with 401: both scripts end with the error,
    after the directory is made and the one request is sent. *)
Lemma refused_key_is_fatal_witness :
  let failure := RuntimeError (AuthFailed 401 (lit "denied")) in
  let after :=
    {| events := [EvRequest (auth_request (lit "KEY")); EvMkdir [lit "icons"]];
       dirs := [[lit "icons"]]; contents := [] |} in
  Scripts.main (U := ascii_text) denied_world (label_args png) empty_state
  = (Raise failure, after)
  /\ Workflows.main denied_world (query_args png 10) empty_state = (Raise failure, after)
  /\ exit_status (@Raise unit failure) = 1%Z.
Proof.
  destruct (@refused_key_is_fatal denied_world ascii_text
              (label_args png) (query_args png 10) (lit "KEY") empty_state
              {| events := [EvMkdir [lit "icons"]]; dirs := [[lit "icons"]];
                 contents := [] |}
              {| auth_status := 401; auth_text := lit "denied"; auth_json := None |}
              eq_refl ltac:(discriminate) eq_refl ltac:(discriminate))
    as (Hs & Hw & Hx).
  split; [apply Hs; reflexivity | split; [apply Hw; reflexivity | exact Hx]].
Defined.

(* ================================================================== *)
(** * The label file of the batch-by-label script *)

Section LabelFile.
Context {U : Unicode} (w : world).

(** With the key accepted and the file read, what is left of [main] is the
    loop over the labels and the final tally. *)
Lemma scripts_main_after_reading (a : Scripts.args)
  (st st0 st1 : state) (api_key token : str) (lines : list str) :
  env_api_key w = Some api_key ->
  api_key <> [] ->
  mkdir_parents (Scripts.out a) st = (Ok tt, st0) ->
  Scripts.get_token w api_key st0 = (Ok token, st1) ->
  read_lines w (Scripts.file a) = Some lines ->
  Scripts.main w a st
  = bind (Scripts.for_each_label w a token (Scripts.out a)
            (Scripts.read_labels lines) (0, 0)%Z)
         (fun counts => print stdout (LabelDone (fst counts) (snd counts) (Scripts.out a)))
         st1.
Proof.
  intros Hk Hne Hmk Ht Hl. unfold Scripts.main. rewrite Hk.
  destruct api_key as [|c k]; [congruence|].
  unfold bind at 1. rewrite Hmk.
  unfold bind at 1. rewrite Ht.
  unfold bind at 1. unfold open_lines. rewrite Hl. reflexivity.
Qed.

(** The batch-by-label script, with the key accepted and the file read,
    ends normally exactly when the file has no label (only blank lines and
    comments). Then it sends no request after the authentication, and all it
    prints is the tally of 0 succeeded and 0 failed. *)
Theorem scripts_main_ends_well_only_without_labels (a : Scripts.args)
  (st st0 st1 : state) (api_key token : str) (lines : list str) :
  env_api_key w = Some api_key ->
  api_key <> [] ->
  mkdir_parents (Scripts.out a) st = (Ok tt, st0) ->
  Scripts.get_token w api_key st0 = (Ok token, st1) ->
  read_lines w (Scripts.file a) = Some lines ->
  (fst (Scripts.main w a st) = Ok tt <-> Scripts.read_labels lines = [])
  /\ (Scripts.read_labels lines = [] ->
      Scripts.main w a st
      = (Ok tt, log (EvPrint stdout (LabelDone 0 0 (Scripts.out a))) st1)).
Proof.
  intros Hk Hne Hmk Ht Hl.
  rewrite (@scripts_main_after_reading a st st0 st1 api_key token lines Hk Hne Hmk Ht Hl).
  destruct (Scripts.read_labels lines) as [|label rest].
  - cbn [Scripts.for_each_label]. run_monad. cbn [fst snd].
    split; [split; reflexivity | reflexivity].
  - cbn [Scripts.for_each_label]. unfold bind, Scripts.process_label.
    rewrite scripts_safe_filename_type_error. cbn [lift fst].
    split; [split; discriminate | discriminate].
Qed.

(** The label file is opened only after the output directory is made and
    the key is accepted: a file that cannot be opened ends the run with
    [OSError], uncaught, in the state right after the authentication.
    Nothing is printed and the exit status is 1. *)
Theorem unreadable_label_file_is_fatal (a : Scripts.args)
  (st st0 st1 : state) (api_key token : str) :
  env_api_key w = Some api_key ->
  api_key <> [] ->
  mkdir_parents (Scripts.out a) st = (Ok tt, st0) ->
  Scripts.get_token w api_key st0 = (Ok token, st1) ->
  read_lines w (Scripts.file a) = None ->
  Scripts.main w a st = (Raise OSError, st1)
  /\ exit_status (@Raise unit OSError) = 1%Z.
Proof.
  intros Hk Hne Hmk Ht Hl. unfold Scripts.main. rewrite Hk.
  destruct api_key as [|c k]; [congruence|].
  unfold bind at 1. rewrite Hmk.
  unfold bind at 1. rewrite Ht.
  unfold bind at 1. unfold open_lines. rewrite Hl. split; reflexivity.
Qed.

End LabelFile.

(** A file with a comment and a blank line: the run ends normally with the
    tally of nothing. *)
Lemma scripts_main_ends_well_only_without_labels_witness :
  Scripts.main (U := ascii_text) comments_world (label_args png) empty_state
  = (Ok tt, log (EvPrint stdout (LabelDone 0 0 [lit "icons"])) authenticated_state).
Proof.
  destruct (@scripts_main_ends_well_only_without_labels ascii_text comments_world
              (label_args png) empty_state
              {| events := [EvMkdir [lit "icons"]]; dirs := [[lit "icons"]];
                 contents := [] |}
              authenticated_state (lit "KEY") (lit "T1") [lit "# icons"; lit "  "]
              eq_refl ltac:(discriminate) eq_refl eq_refl eq_refl) as [_ H].
  apply H. reflexivity.
Defined.

(** The file cannot be opened: the run ends with [OSError] after the
    authentication. *)
Lemma unreadable_label_file_is_fatal_witness :
  Scripts.main (U := ascii_text) unreadable_world (label_args png) empty_state
  = (Raise OSError, authenticated_state)
  /\ exit_status (@Raise unit OSError) = 1%Z.
Proof.
  apply (@unreadable_label_file_is_fatal ascii_text unreadable_world (label_args png)
           empty_state
           {| events := [EvMkdir [lit "icons"]]; dirs := [[lit "icons"]]; contents := [] |}
           authenticated_state (lit "KEY") (lit "T1"));
    first [ reflexivity | discriminate ].
Defined.

(* ================================================================== *)
(** * What one item prints and counts *)

Lemma quiet_ret {A} (a : A) : quiet (ret a).
Proof. intros st. reflexivity. Qed.

Lemma quiet_raise {A} e : quiet (@raise A e).
Proof. intros st. reflexivity. Qed.

Lemma quiet_lift {A} (r : result A) : quiet (lift r).
Proof. intros st. reflexivity. Qed.

Lemma quiet_send {R} (server : list event -> request -> option R) req :
  quiet (send server req).
Proof.
  intros st. unfold send, log. cbn [snd events].
  rewrite printed_cons. apply app_nil_r.
Qed.

Lemma quiet_sleep ms : quiet (sleep ms).
Proof.
  intros st. unfold sleep, log. cbn [snd events].
  rewrite printed_cons. apply app_nil_r.
Qed.

Lemma quiet_write p c : quiet (write_file p c).
Proof.
  intros st. unfold write_file. destruct (_ && _); cbn [snd events]; [|reflexivity].
  rewrite printed_cons. apply app_nil_r.
Qed.

Lemma quiet_status s : quiet (raise_for_status s).
Proof. intros st. unfold raise_for_status. now destruct (_ && _). Qed.

Lemma quiet_bind {A B} (m : M A) (k : A -> M B) :
  quiet m -> (forall a, quiet (k a)) -> quiet (bind m k).
Proof.
  intros Hm Hk st. unfold bind. specialize (Hm st).
  destruct (m st) as [[a|e] st1]; cbn [snd] in *.
  - rewrite Hk. exact Hm.
  - exact Hm.
Qed.

(** One step of a proof that a computation prints nothing, along its
    syntax. *)
Ltac quiet_step :=
  match goal with
  | |- quiet (ret _) => apply quiet_ret
  | |- quiet (raise _) => apply quiet_raise
  | |- quiet (lift _) => apply quiet_lift
  | |- quiet (send _ _) => apply quiet_send
  | |- quiet (sleep _) => apply quiet_sleep
  | |- quiet (write_file _ _) => apply quiet_write
  | |- quiet (raise_for_status _) => apply quiet_status
  | |- quiet (bind _ _) => apply quiet_bind; [ | intros ? ]
  | |- quiet (match ?x with _ => _ end) => destruct x
  end.

Ltac quiets := repeat quiet_step.

Section Reports.
Context (w : world).

Lemma scripts_download_quiet token icon_id fmt size dest :
  quiet (Scripts.download_icon w token icon_id fmt size dest).
Proof. unfold Scripts.download_icon. quiets. Qed.

Lemma workflows_download_quiet token icon_id fmt size dest :
  quiet (Workflows.download_icon w token icon_id fmt size dest).
Proof. unfold Workflows.download_icon, Workflows.get_asset. quiets. Qed.

Lemma search_first_icon_quiet token q order_by :
  quiet (Scripts.search_first_icon w token q order_by).
Proof. unfold Scripts.search_first_icon. quiets. Qed.

(** A turn of the loop over the labels computes the file name and goes on
    with the [try] statement and the sleep. *)
Lemma process_label_turn {U : Unicode} (a : Scripts.args) (token : str)
  (out_dir : path) (label : str) (counts : Z * Z) :
  Scripts.process_label w a token out_dir label counts
  = (filename_base <- lift (Scripts.safe_filename label) ;;
     turn_after_filename w a token out_dir label filename_base counts).
Proof. reflexivity. Qed.

(** The [try] statement of a label in the batch-by-label script, whatever
    the servers do: it ends without an exception, it prints exactly one
    line, which is about this label (OK, MISS or ERR), and it moves exactly
    one of the two counters by one: the successes together with an OK line,
    the failures together with any other line. *)
Theorem guarded_attempt_counts_once (a : Scripts.args) (token label q : str)
  (dest : path) (successes failures : Z) (st : state) :
  exists counts st' l,
    guarded_attempt w a token label q dest (successes, failures) st = (Ok counts, st')
    /\ label_line label q dest l
    /\ printed (events st') = printed (events st) ++ [l]
    /\ (counts = (successes + 1, failures)%Z /\ (exists n, l = LabelOK label q n dest)
        \/ counts = (successes, failures + 1)%Z /\ (forall n, l <> LabelOK label q n dest)).
Proof.
  unfold guarded_attempt, try_except, Scripts.attempt.
  pose proof (@search_first_icon_quiet token q (Scripts.order a) st) as Hq.
  pose proof (@search_first_icon_benign w token q (Scripts.order a) st) as Hb.
  unfold bind at 1.
  destruct (Scripts.search_first_icon w token q (Scripts.order a) st)
    as [[icon|e] st1]; cbn [fst snd] in *.
  2:{ rewrite (@benign_is_Exception _ Hb). run_monad.
      do 2 eexists. exists (LabelERR label q e).
      split; [reflexivity|]. cbn [events]. rewrite printed_cons, Hq.
      repeat split.
      - right. right. now exists e.
      - right. split; [reflexivity | discriminate]. }
  assert (Hmiss : forall reason,
    exists counts st' l,
      (Ok (successes, failures + 1)%Z,
       log (EvPrint stderr (LabelMISS label q reason)) st1) = (Ok counts, st')
      /\ label_line label q dest l
      /\ printed (events st') = printed (events st) ++ [l]
      /\ (counts = (successes + 1, failures)%Z /\ (exists n, l = LabelOK label q n dest)
          \/ counts = (successes, failures + 1)%Z
             /\ (forall n, l <> LabelOK label q n dest))).
  { intros reason. do 2 eexists. exists (LabelMISS label q reason).
    split; [reflexivity|]. cbn [events log]. rewrite printed_cons, Hq.
    repeat split.
    - right. left. now exists reason.
    - right. split; [reflexivity | discriminate]. }
  destruct icon as [item|]; [|apply Hmiss].
  destruct (record_truthy item); [|apply Hmiss].
  destruct (get_id item) as [n|]; [|apply Hmiss].
  destruct (n =? 0)%Z; [apply Hmiss|].
  pose proof (@scripts_download_quiet token n (Scripts.format a) (Scripts.size a)
                dest st1) as Hd.
  pose proof (@scripts_download_benign w token n (Scripts.format a) (Scripts.size a)
                dest st1) as Hdb.
  unfold bind at 1.
  destruct (Scripts.download_icon w token n (Scripts.format a) (Scripts.size a) dest st1)
    as [[[]|e] st2]; cbn [fst snd] in *.
  - run_monad. do 2 eexists. exists (LabelOK label q n dest).
    split; [reflexivity|]. cbn [events]. rewrite printed_cons, Hd, Hq.
    repeat split.
    + left. now exists n.
    + left. split; [reflexivity | now exists n].
  - rewrite (@benign_is_Exception _ Hdb). run_monad.
    do 2 eexists. exists (LabelERR label q e).
    split; [reflexivity|]. cbn [events]. rewrite printed_cons, Hd, Hq.
    repeat split.
    + right. right. now exists e.
    + right. split; [reflexivity | discriminate].
Qed.

(** The [try] statement of a label lets no exception out. *)
Lemma guarded_attempt_returns (a : Scripts.args) (token label q : str)
  (dest : path) (counts : Z * Z) (st : state) :
  exists counts', fst (guarded_attempt w a token label q dest counts st) = Ok counts'.
Proof.
  unfold guarded_attempt, try_except.
  pose proof (@attempt_benign w a token label q dest counts st) as Hb.
  destruct (Scripts.attempt w a token label q dest counts st) as [[c|e] st1];
    cbn [fst] in *.
  - now exists c.
  - rewrite (@benign_is_Exception _ Hb). run_monad. cbn [fst]. eauto.
Qed.

(** The sleep between two labels never happens. Whatever file name a label
    is given, the rest of its turn runs the [try] statement and then ends
    with [AttributeError], in the state that the [try] statement left: the
    expression [args.delay-ms / 1000.0] reads [args.delay], and the parser
    declares [--delay-ms], whose attribute is [delay_ms]. So a repaired
    file-name helper alone would not let the loop reach a second label. *)
Theorem turn_ends_at_the_sleep {U : Unicode} (a : Scripts.args) (token : str)
  (out_dir : path) (label filename_base : str) (counts : Z * Z) (st : state) :
  let q := Scripts.normalize_query label in
  let ext := match Scripts.format a with svg => lit "svg" | png => lit "png" end in
  let dest := path_join out_dir (filename_base ++ lit "." ++ ext) in
  turn_after_filename w a token out_dir label filename_base counts st
  = (Raise AttributeError, snd (guarded_attempt w a token label q dest counts st))
  /\ exit_status (@Raise unit AttributeError) = 1%Z.
Proof.
  intros q ext dest. split; [|reflexivity].
  unfold turn_after_filename. cbv zeta. fold q. fold ext. fold dest.
  destruct (guarded_attempt_returns a token label q dest counts st) as (c & Hc).
  unfold bind at 1.
  destruct (guarded_attempt w a token label q dest counts st) as [r st'].
  cbn [fst snd] in *. subst r. reflexivity.
Qed.

(** One result with an identifier, in the batch-by-query script, whatever
    the servers do: the turn ends without an exception; it prints exactly
    one line, and that is the last thing it does before it sleeps for 150
    milliseconds; the line is the success line on the standard output
    together with a count one higher, or the failure line on the standard
    error together with the count unchanged. *)
Theorem process_item_reports_once (a : Workflows.args) (token : str)
  (out_dir : path) (item : icon_record) (n downloaded : Z) (st : state) :
  get_id item = Some n ->
  n <> 0%Z ->
  exists d' st' stream l evs,
    Workflows.process_item w a token out_dir item downloaded st = (Ok d', st')
    /\ events st' = EvSleep 150 :: EvPrint stream l :: evs
    /\ printed evs = printed (events st)
    /\ (d' = (downloaded + 1)%Z /\ stream = stdout /\ (exists dest, l = QueryOK n dest)
        \/ d' = downloaded /\ stream = stderr /\ (exists e, l = QueryFail n e)).
Proof.
  intros Hid Hn. unfold Workflows.process_item. rewrite Hid.
  apply Z.eqb_neq in Hn. rewrite Hn.
  pose proof (@workflows_download_quiet token n (Workflows.format a)
                (Workflows.size a) out_dir st) as Hq.
  pose proof (@workflows_download_benign w token n (Workflows.format a)
                (Workflows.size a) out_dir st) as Hb.
  run_monad.
  destruct (Workflows.download_icon w token n (Workflows.format a)
              (Workflows.size a) out_dir st) as [[dest|e] st1]; cbn [fst snd] in *.
  - do 2 eexists. exists stdout, (QueryOK n dest), (events st1).
    split; [reflexivity|]. split; [reflexivity|]. split; [exact Hq|].
    left. split; [reflexivity|]. split; [reflexivity|]. now exists dest.
  - rewrite (@benign_is_Exception _ Hb).
    do 2 eexists. exists stderr, (QueryFail n e), (events st1).
    split; [reflexivity|]. split; [reflexivity|]. split; [exact Hq|].
    right. split; [reflexivity|]. split; [reflexivity|]. now exists e.
Qed.

End Reports.

(** The record 11, answered with the image itself: one line, on the
    standard output, and a count of one. *)
Lemma process_item_reports_once_witness :
  exists d' st' stream l evs,
    Workflows.process_item direct_png_world (query_args png 10) (lit "T1")
      [lit "icons"] (record_of_id 11) 0%Z authenticated_state = (Ok d', st')
    /\ events st' = EvSleep 150 :: EvPrint stream l :: evs
    /\ printed evs = printed (events authenticated_state)
    /\ (d' = (0 + 1)%Z /\ stream = stdout /\ (exists dest, l = QueryOK 11 dest)
        \/ d' = 0%Z /\ stream = stderr /\ (exists e, l = QueryFail 11 e)).
Proof.
  apply (@process_item_reports_once direct_png_world (query_args png 10) (lit "T1")
           [lit "icons"] (record_of_id 11) 11%Z 0%Z authenticated_state);
    [reflexivity | discriminate].
Defined.

(* ================================================================== *)
(** * The records a search returns *)

Section Pages.
Context (w : world) (token query : str) (order_by : order_mode) (limit : Z).
Open Scope Z_scope.

Lemma search_loop_collects fuel : forall out pg st res st',
  Workflows.search_loop w fuel token query order_by limit out pg st = Some (Ok res, st') ->
  exists new, events st' = new ++ events st
    /\ res = out ++ collected w (events st) (rev new).
Proof.
  induction fuel as [|fuel IH]; intros out pg st res st' H;
    cbn [Workflows.search_loop] in H.
  - destruct (len out <? limit); [discriminate|].
    injection H as <- <-. exists []. cbn. now rewrite app_nil_r.
  - destruct (len out <? limit).
    2:{ injection H as <- <-. exists []. cbn. now rewrite app_nil_r. }
    unfold send in H.
    set (req := Workflows.search_request token query order_by limit out pg) in *.
    destruct (reply (search_server w) (events st) req) as [r|e] eqn:Er; [|discriminate].
    destruct (search_status r =? 200) eqn:Es; cbn [negb] in H; [|discriminate].
    destruct (search_json r) as [payload|] eqn:Ej; [|discriminate].
    set (its := match data payload with Some d => d | None => [] end) in *.
    assert (Hpg : items_of (page_of (reply (search_server w) (events st) req)) = its).
    { rewrite Er. cbn. now rewrite Es, Ej. }
    clearbody its.
    destruct its as [|i items].
    { injection H as <- <-. exists [EvRequest req]. split; [reflexivity|].
      cbn [rev app collected]. rewrite Hpg. cbn [app]. now rewrite app_nil_r. }
    destruct (_ || _).
    { injection H as <- <-. exists [EvRequest req]. split; [reflexivity|].
      cbn [rev app collected]. rewrite Hpg. now rewrite app_nil_r. }
    apply IH in H as (new & Hev & Hres).
    exists (new ++ [EvSleep 200; EvRequest req]). split.
    + rewrite Hev. cbn. now rewrite <- app_assoc.
    + rewrite rev_app_distr. cbn [rev app collected]. rewrite Hpg.
      rewrite Hres. cbn [log events]. now rewrite <- app_assoc.
Qed.

(** What [search_icons] returns, when it returns: the records of the pages
    it requested, in the order of the requests and, within a page, in the
    order of the answer, cut to the first [limit] of them. No record is
    dropped, repeated or reordered before the cut. *)
Theorem search_icons_returns_pages_in_order (st : state) (out : list icon_record)
  (st' : state) :
  Workflows.search_icons w token query order_by limit st = (Ok out, st') ->
  exists new, events st' = new ++ events st
    /\ out = slice_to limit (collected w (events st) (rev new)).
Proof.
  unfold Workflows.search_icons.
  pose proof (@search_loop_total w token query order_by limit (Z.to_nat limit) [] 1 st)
    as Htot.
  destruct (Workflows.search_loop w (Z.to_nat limit) token query order_by limit [] 1 st)
    as [[[res|e] st1]|] eqn:E.
  - intros H. injection H as <- <-.
    apply search_loop_collects in E as (new & Hev & Hres).
    exists new. split; [exact Hev|]. now rewrite Hres.
  - discriminate.
  - exfalso. apply Htot; [|reflexivity]. unfold len. cbn. lia.
Qed.

(** With a limit of zero or less [search_icons] sends no request at all
    and returns no record: the state is left as it was. *)
Theorem search_icons_without_limit (st : state) :
  limit <= 0 ->
  Workflows.search_icons w token query order_by limit st = (Ok [], st).
Proof.
  intros Hl. unfold Workflows.search_icons.
  assert (E : forall fuel, Workflows.search_loop w fuel token query order_by limit [] 1 st
                           = Some (Ok [], st)).
  { intros fuel. destruct fuel; cbn [Workflows.search_loop];
      replace (len [] <? limit) with false; try reflexivity;
      symmetry; apply Z.ltb_ge; unfold len; cbn; lia. }
  rewrite E. unfold slice_to. destruct (0 <=? limit); now rewrite firstn_nil.
Qed.

End Pages.

(** A limit of one, answered with a page of two records: one request is
    made and the first record of the page is returned. *)
Lemma search_icons_returns_pages_in_order_witness :
  exists new,
    [EvSleep 200;
     EvRequest (Workflows.search_request (lit "T1") (lit "api") priority 1 [] 1);
     EvRequest (auth_request (lit "KEY")); EvMkdir [lit "icons"]]
    = new ++ events authenticated_state
    /\ [record_of_id 11]
       = slice_to 1 (collected two_records_world (events authenticated_state) (rev new)).
Proof.
  apply (@search_icons_returns_pages_in_order two_records_world (lit "T1") (lit "api")
           priority 1%Z authenticated_state [record_of_id 11]
           {| events := [EvSleep 200;
                         EvRequest (Workflows.search_request (lit "T1") (lit "api")
                                      priority 1 [] 1);
                         EvRequest (auth_request (lit "KEY")); EvMkdir [lit "icons"]];
              dirs := [[lit "icons"]]; contents := [] |}).
  reflexivity.
Defined.

(** A limit of zero. *)
Lemma search_icons_without_limit_witness :
  Workflows.search_icons two_records_world (lit "T1") (lit "api") priority 0
    authenticated_state = (Ok [], authenticated_state).
Proof.
  apply (@search_icons_without_limit two_records_world (lit "T1") (lit "api")
           priority 0%Z authenticated_state).
  lia.
Defined.

Section FailedSearch.
Context (w : world).

(** In the batch-by-query script the search is not guarded: with the key
    accepted and a positive limit, an answer to the first search request
    with a status other than 200 ends [main] with the "Search error",
    uncaught, right after that request. Nothing is printed, not even the
    final count, and no download is attempted. *)
Theorem failed_search_is_fatal (a : Workflows.args) (api_key token : str)
  (st st0 st1 : state) (resp : search_response) :
  let req := Workflows.search_request token (Workflows.query a) (Workflows.order a)
               (Workflows.limit a) [] 1 in
  env_api_key w = Some api_key ->
  api_key <> [] ->
  mkdir_parents (Workflows.out a) st = (Ok tt, st0) ->
  Workflows.get_token w api_key st0 = (Ok token, st1) ->
  (0 < Workflows.limit a)%Z ->
  search_server w (events st1) req = Some resp ->
  search_status resp <> 200%Z ->
  Workflows.main w a st
  = (Raise (RuntimeError (SearchError (search_status resp) (search_text resp))),
     log (EvRequest req) st1).
Proof.
  intros req Hk Hne Hmk Ht Hl Hsrv Hst. unfold Workflows.main. rewrite Hk.
  destruct api_key as [|c k]; [congruence|].
  unfold bind at 1. rewrite Hmk.
  unfold bind at 1. rewrite Ht.
  unfold bind at 1. unfold Workflows.search_icons.
  destruct (Z.to_nat (Workflows.limit a)) as [|fuel] eqn:Ef; [lia|].
  cbn [Workflows.search_loop].
  replace (len [] <? Workflows.limit a)%Z with true
    by (symmetry; apply Z.ltb_lt; unfold len; cbn; lia).
  unfold send, reply. fold req. rewrite Hsrv.
  apply Z.eqb_neq in Hst. rewrite Hst. reflexivity.
Qed.

End FailedSearch.

(** The search endpoint answers 500: the run ends with the error after the
    directory, the authentication and the one search request. *)
Lemma failed_search_is_fatal_witness :
  Workflows.main failing_search_world (query_args png 10) empty_state
  = (Raise (RuntimeError (SearchError 500 (lit "oops"))),
     log (EvRequest (Workflows.search_request (lit "T1") (lit "api") priority 10 [] 1))
       authenticated_state).
Proof.
  apply (@failed_search_is_fatal failing_search_world (query_args png 10)
           (lit "KEY") (lit "T1") empty_state
           {| events := [EvMkdir [lit "icons"]]; dirs := [[lit "icons"]]; contents := [] |}
           authenticated_state
           {| search_status := 500; search_text := lit "oops"; search_json := None |});
    first [ reflexivity | discriminate | cbn; lia ].
Defined.

(* ================================================================== *)
(** * The bytes a download writes *)

Lemma status_passes_iff s :
  ((400 <=? s) && (s <? 600))%Z = false -> status_passes s.
Proof. unfold status_passes. intros H. apply andb_false_iff in H as [H|H]; lia. Qed.

(** A case split on an innermost scrutinee of the goal. *)
Ltac inner_case :=
  match goal with
  | |- context [match ?x with _ => _ end] =>
      lazymatch x with
      | context [match _ with _ => _ end] => fail
      | _ => destruct x eqn:?; cbv beta iota
      end
  end.

Ltac nope := let H := fresh in intros H; discriminate H.

(** Ends a branch of a download: it failed, or it wrote what the statement
    says. *)
Ltac download_leaf :=
  first
    [ nope
    | let H := fresh in
      intros H; injection H; intros; subst;
      first
        [ split; reflexivity
        | unfold wrote_asset, wrote; do 2 eexists; cbn [events contents];
          repeat split; try eassumption; now apply status_passes_iff ] ].

Section Written.
Context (w : world).

(** A download that succeeds has written exactly one file, and its content
    is what the server sent. The final reply of the download endpoint had
    status 200. When it carried the URL of the asset, the last two things
    done were the request of that URL, without credentials, and the
    writing of the file: the asset's status was not a 4xx or 5xx one, and
    the file holds the asset's chunks, in order and whole. Otherwise the
    reply had an image content type and the file holds its body. The
    batch-by-label script takes an empty URL for no URL; the batch-by-query
    script requests it. *)
Theorem download_writes_what_it_received (token : str) (icon_id : Z)
  (fmt : image_format) (size : Z) (st : state) :
  (forall dest_dir dest st',
      Workflows.download_icon w token icon_id fmt size dest_dir st = (Ok dest, st') ->
      exists r, final_reply w token icon_id fmt size st = Ok r
        /\ resolve_status r = 200%Z
        /\ match resolve_url r with
           | Some u => wrote_asset w u st st' dest
           | None => image_content_type r = true /\ wrote st st' dest (resolve_content r)
           end)
  /\ (forall dest st',
      Scripts.download_icon w token icon_id fmt size dest st = (Ok tt, st') ->
      exists r, final_reply w token icon_id fmt size st = Ok r
        /\ resolve_status r = 200%Z
        /\ match resolve_url r with
           | Some (c :: u) => wrote_asset w (c :: u) st st' dest
           | _ => image_content_type r = true /\ wrote st st' dest (resolve_content r)
           end).
Proof.
  split.
  - intros dest_dir dest st'.
    unfold Workflows.download_icon, final_reply, wrote, image_content_type.
    fold (query_style token icon_id fmt size). fold (path_style token icon_id fmt size).
    run_monad. cbn [events dirs contents].
    destruct (reply (resolve_server w) (events st) _) as [r1|e]; [|nope].
    destruct (resolve_status r1 =? 404)%Z.
    + destruct (reply (resolve_server w) _ _) as [r2|e]; [|nope].
      destruct (resolve_status r2 =? 200)%Z eqn:E200; cbn [negb]; [|nope].
      apply Z.eqb_eq in E200. intros H. exists r2.
      split; [reflexivity|]. split; [exact E200|]. revert H.
      unfold reply. fold asset_fetch.
      repeat inner_case; cbn [events dirs contents]; download_leaf.
    + destruct (resolve_status r1 =? 200)%Z eqn:E200; cbn [negb]; [|nope].
      apply Z.eqb_eq in E200. intros H. exists r1.
      split; [reflexivity|]. split; [exact E200|]. revert H.
      unfold reply. fold asset_fetch.
      repeat inner_case; cbn [events dirs contents]; download_leaf.
  - intros dest st'.
    unfold Scripts.download_icon, final_reply, wrote.
    fold (query_style token icon_id fmt size). fold (path_style token icon_id fmt size).
    run_monad. cbn [events dirs contents].
    destruct (reply (resolve_server w) (events st) _) as [r1|e]; [|nope].
    destruct (resolve_status r1 =? 404)%Z.
    + destruct (reply (resolve_server w) _ _) as [r2|e]; [|nope].
      destruct (resolve_status r2 =? 200)%Z eqn:E200; cbn [negb]; [|nope].
      apply Z.eqb_eq in E200. intros H. exists r2.
      split; [reflexivity|]. split; [exact E200|]. revert H.
      unfold reply. fold asset_fetch.
      repeat inner_case; cbn [events dirs contents]; download_leaf.
    + destruct (resolve_status r1 =? 200)%Z eqn:E200; cbn [negb]; [|nope].
      apply Z.eqb_eq in E200. intros H. exists r1.
      split; [reflexivity|]. split; [exact E200|]. revert H.
      unfold reply. fold asset_fetch.
      repeat inner_case; cbn [events dirs contents]; download_leaf.
Qed.

(** A final reply of status 200 that has neither the URL of an asset nor an
    image content type: in both scripts [download_icon] raises the
    "Unexpected download response" error, which carries the identifier and
    at most the first 500 code points of the body, and writes no file. *)
Theorem unexpected_download_reply (token : str) (icon_id : Z) (fmt : image_format)
  (size : Z) (st : state) (r : resolve_response) :
  final_reply w token icon_id fmt size st = Ok r ->
  resolve_status r = 200%Z ->
  resolve_url r = None ->
  image_content_type r = false ->
  (forall dest, fst (Scripts.download_icon w token icon_id fmt size dest st)
                = Raise (unexpected icon_id r)
                /\ contents (snd (Scripts.download_icon w token icon_id fmt size dest st))
                   = contents st)
  /\ (forall dest_dir, fst (Workflows.download_icon w token icon_id fmt size dest_dir st)
                       = Raise (unexpected icon_id r)
                       /\ contents (snd (Workflows.download_icon w token icon_id fmt size
                                           dest_dir st))
                          = contents st)
  /\ (List.length (firstn 500 (resolve_text r)) <= 500)%nat.
Proof.
  intros Hfinal Hst Hurl Himg.
  split; [|split; [|apply firstn_le_length]].
  - intros dest.
    destruct (Scripts.download_icon w token icon_id fmt size dest st) as [res st'] eqn:Hrun.
    revert Hrun Hfinal. unfold Scripts.download_icon, final_reply, unexpected.
    fold (query_style token icon_id fmt size). fold (path_style token icon_id fmt size).
    run_monad. cbn [events dirs contents fst snd].
    destruct (reply (resolve_server w) (events st) _) as [r1|e]; [|discriminate].
    destruct (resolve_status r1 =? 404)%Z.
    + destruct (reply (resolve_server w) _ _) as [r2|e]; [|discriminate].
      intros Hrun H. injection H as ->. revert Hrun.
      rewrite Hst, Hurl, Himg. cbn. intros H. injection H as <- <-. now split.
    + intros Hrun H. injection H as ->. revert Hrun.
      rewrite Hst, Hurl, Himg. cbn. intros H. injection H as <- <-. now split.
  - intros dest.
    destruct (Workflows.download_icon w token icon_id fmt size dest st) as [res st'] eqn:Hrun.
    revert Hrun Hfinal. unfold Workflows.download_icon, final_reply, unexpected.
    fold (query_style token icon_id fmt size). fold (path_style token icon_id fmt size).
    run_monad. cbn [events dirs contents fst snd].
    unfold image_content_type in Himg.
    destruct (reply (resolve_server w) (events st) _) as [r1|e]; [|discriminate].
    destruct (resolve_status r1 =? 404)%Z.
    + destruct (reply (resolve_server w) _ _) as [r2|e]; [|discriminate].
      intros Hrun H. injection H as ->. revert Hrun.
      rewrite Hst, Hurl. cbn [Z.eqb Pos.eqb negb].
      destruct (resolve_content_type r) as [ct|]; [rewrite Himg|];
        intros H; injection H as <- <-; now split.
    + intros Hrun H. injection H as ->. revert Hrun.
      rewrite Hst, Hurl. cbn [Z.eqb Pos.eqb negb].
      destruct (resolve_content_type r) as [ct|]; [rewrite Himg|];
        intros H; injection H as <- <-; now split.
Qed.

End Written.

(** The download endpoint answers 200 with a page of text: both scripts
    raise the error with its body and write nothing. *)
Lemma unexpected_download_reply_witness :
  (forall dest, fst (Scripts.download_icon html_world (lit "T1") 11 png 128 dest
                       authenticated_state)
                = Raise (unexpected 11 (binary_reply 200 "text/html"))
                /\ contents (snd (Scripts.download_icon html_world (lit "T1") 11 png 128
                                    dest authenticated_state))
                   = contents authenticated_state)
  /\ (forall dest_dir, fst (Workflows.download_icon html_world (lit "T1") 11 png 128
                              dest_dir authenticated_state)
                       = Raise (unexpected 11 (binary_reply 200 "text/html"))
                       /\ contents (snd (Workflows.download_icon html_world (lit "T1") 11
                                           png 128 dest_dir authenticated_state))
                          = contents authenticated_state)
  /\ (List.length (firstn 500 (resolve_text (binary_reply 200 "text/html"))) <= 500)%nat.
Proof.
  apply (@unexpected_download_reply html_world (lit "T1") 11%Z png 128%Z
           authenticated_state (binary_reply 200 "text/html"));
    reflexivity.
Defined.

(* ================================================================== *)
(** * The final count of the batch-by-query script *)

Section Count.
Context (w : world).

(** What a download of the batch-by-query script does to the files: it
    removes nothing, and when it succeeds it has written the file it
    returns, [<id>.svg] or [<id>.png] in the directory it was given. *)
Lemma workflows_download_wrote token icon_id fmt size dest_dir st :
  forall res st',
  Workflows.download_icon w token icon_id fmt size dest_dir st = (res, st') ->
  exists more,
    contents st' = more ++ contents st
    /\ match res with
       | Ok dest =>
           exists ext body,
             (ext = lit "svg" \/ ext = lit "png")
             /\ dest = path_join dest_dir (str_of_int icon_id ++ lit "." ++ ext)
             /\ In (dest, body) more
       | Raise _ => True
       end.
Proof.
  intros res st'. unfold Workflows.download_icon, Workflows.get_asset.
  run_monad. cbn [events dirs contents].
  repeat inner_case; cbn [events dirs contents];
    intros H; injection H; intros; subst; cbn [contents];
    try match goal with
        | E : Ok _ = Raise _ |- _ => discriminate E
        | E : Raise _ = Ok _ |- _ => discriminate E
        end;
    first
      [ exists []; split; [reflexivity | exact I]
      | eexists [_]; split; [reflexivity|];
        do 2 eexists; split; [|split; [reflexivity | left; reflexivity]]; auto ].
Qed.

Lemma search_loop_quiet token query order_by limit fuel :
  forall out pg st res st',
  Workflows.search_loop w fuel token query order_by limit out pg st = Some (res, st') ->
  printed (events st') = printed (events st) /\ contents st' = contents st.
Proof.
  induction fuel as [|fuel IH]; intros out pg st res st' H;
    cbn [Workflows.search_loop] in H.
  - destruct (len out <? limit)%Z; [discriminate|]. now injection H as <- <-.
  - destruct (len out <? limit)%Z; [|now injection H as <- <-].
    unfold send in H.
    assert (Hsent : forall req,
              printed (events (log (EvRequest req) st)) = printed (events st)
              /\ contents (log (EvRequest req) st) = contents st).
    { intros req. cbn [log events contents]. rewrite printed_cons.
      now rewrite app_nil_r. }
    destruct (reply (search_server w) (events st) _) as [r|e];
      [|injection H as <- <-; apply Hsent].
    destruct (negb _); [injection H as <- <-; apply Hsent|].
    destruct (search_json r) as [payload|]; [|injection H as <- <-; apply Hsent].
    destruct (match data payload with Some d => d | None => [] end) as [|i items];
      [injection H as <- <-; apply Hsent|].
    destruct (_ || _); [injection H as <- <-; apply Hsent|].
    apply IH in H as [H1 H2]. rewrite H1, H2.
    cbn [log events contents]. rewrite !printed_cons, !app_nil_r. now split.
Qed.

(** A search prints nothing and writes no file. *)
Lemma search_icons_quiet token query order_by limit st res st' :
  Workflows.search_icons w token query order_by limit st = (res, st') ->
  printed (events st') = printed (events st) /\ contents st' = contents st.
Proof.
  unfold Workflows.search_icons.
  destruct (Workflows.search_loop w (Z.to_nat limit) token query order_by limit [] 1 st)
    as [[[out|e] st1]|] eqn:E; intros H; injection H as <- <-;
    try (now split); now apply search_loop_quiet in E.
Qed.

Lemma truthful_more out results results' written written' ok :
  (forall item, In item results -> In item results') ->
  (forall f, In f written -> In f written') ->
  truthful out results written ok -> truthful out results' written' ok.
Proof.
  intros Hr Hw (item & ext & body & Hin & Hid & Hext & Hdest & Hf).
  exists item, ext, body. repeat split; auto.
Qed.

Lemma ok_lines_app ls ls' : ok_lines (ls ++ ls') = ok_lines ls ++ ok_lines ls'.
Proof. unfold ok_lines. apply flat_map_app. Qed.

Section Loop.
Context (a : Workflows.args) (token : str) (out_dir : path).

(** One turn of the loop prints as many success lines as it adds to the
    count, and each of them tells the truth. *)
Lemma process_item_lines item d st :
  exists d' st' lines written,
    Workflows.process_item w a token out_dir item d st = (Ok d', st')
    /\ printed (events st') = printed (events st) ++ lines
    /\ contents st' = written ++ contents st
    /\ len (ok_lines lines) = (d' - d)%Z
    /\ Forall (truthful out_dir [item] written) (ok_lines lines).
Proof.
  unfold Workflows.process_item.
  destruct (get_id item) as [n|] eqn:Hid.
  2:{ exists d, st, [], []. rewrite app_nil_r. unfold len. cbn.
      repeat split; [lia | constructor]. }
  destruct (n =? 0)%Z.
  { exists d, st, [], []. rewrite app_nil_r. unfold len. cbn.
    repeat split; [lia | constructor]. }
  pose proof (@workflows_download_wrote token n (Workflows.format a)
                (Workflows.size a) out_dir st) as Hf.
  pose proof (@workflows_download_quiet w token n (Workflows.format a)
                (Workflows.size a) out_dir st) as Hq.
  pose proof (@workflows_download_benign w token n (Workflows.format a)
                (Workflows.size a) out_dir st) as Hb.
  run_monad.
  destruct (Workflows.download_icon w token n (Workflows.format a)
              (Workflows.size a) out_dir st) as [[dest|e] st1];
    destruct (Hf _ _ eq_refl) as (more & Hc & Hdest); cbn [fst snd] in *.
  - destruct Hdest as (ext & body & Hext & Hd & Hin).
    do 2 eexists. exists [QueryOK n dest], more. split; [reflexivity|].
    cbn [events contents]. rewrite !printed_cons, Hq, app_nil_r.
    unfold len. cbn [ok_lines flat_map app List.length].
    repeat split; [assumption | lia |].
    constructor; [|constructor].
    exists item, ext, body. cbn [fst snd]. repeat split; auto. now left.
  - rewrite (@benign_is_Exception _ Hb).
    do 2 eexists. exists [QueryFail n e], more. split; [reflexivity|].
    cbn [events contents]. rewrite !printed_cons, Hq, app_nil_r.
    unfold len. cbn [ok_lines flat_map app List.length].
    repeat split; [assumption | lia | constructor].
Qed.

Lemma for_each_item_lines results : forall d st,
  exists d' st' lines written,
    Workflows.for_each_item w a token out_dir results d st = (Ok d', st')
    /\ printed (events st') = printed (events st) ++ lines
    /\ contents st' = written ++ contents st
    /\ len (ok_lines lines) = (d' - d)%Z
    /\ Forall (truthful out_dir results written) (ok_lines lines).
Proof.
  induction results as [|item rest IH]; intros d st; cbn [Workflows.for_each_item].
  - exists d, st, [], []. rewrite app_nil_r. unfold len. cbn.
    repeat split; [lia | constructor].
  - destruct (process_item_lines item d st)
      as (d1 & st1 & l1 & w1 & H1 & Hp1 & Hc1 & Hl1 & Hf1).
    unfold bind. rewrite H1.
    destruct (IH d1 st1) as (d2 & st2 & l2 & w2 & H2 & Hp2 & Hc2 & Hl2 & Hf2).
    exists d2, st2, (l1 ++ l2), (w2 ++ w1). split; [exact H2|].
    split; [rewrite Hp2, Hp1; now rewrite app_assoc|].
    split; [rewrite Hc2, Hc1; now rewrite app_assoc|].
    rewrite ok_lines_app. split.
    + unfold len in *. rewrite length_app. lia.
    + apply Forall_app. split.
      * apply Forall_impl with (2 := Hf1). intros ok.
        apply truthful_more.
        -- intros it [<-|[]]. now left.
        -- intros f Hin. apply in_or_app. now right.
      * apply Forall_impl with (2 := Hf2). intros ok.
        apply truthful_more.
        -- intros it Hin. now right.
        -- intros f Hin. apply in_or_app. now left.
Qed.
End Loop.

(** The count that the batch-by-query script prints at the end is the
    number of success lines it has printed, and every success line tells
    the truth. Once the key is accepted and the search has returned, the
    run ends normally and prints, in this order, the number of results, the
    lines of the items, and the final count. That count is the number of
    success lines among the lines of the items; and each success line
    carries the identifier of one of the results and the path [<id>.svg] or
    [<id>.png] in the output directory, at which a file was written during
    the run. *)
Theorem workflows_count_is_success_lines (a : Workflows.args)
  (st st0 st1 st2 : state) (api_key token : str) (results : list icon_record) :
  env_api_key w = Some api_key ->
  api_key <> [] ->
  mkdir_parents (Workflows.out a) st = (Ok tt, st0) ->
  Workflows.get_token w api_key st0 = (Ok token, st1) ->
  Workflows.search_icons w token (Workflows.query a) (Workflows.order a)
    (Workflows.limit a) st1 = (Ok results, st2) ->
  exists downloaded st' lines written,
    Workflows.main w a st = (Ok tt, st')
    /\ printed (events st')
       = printed (events st)
         ++ QueryFound (List.length results) (Workflows.limit a) :: lines
         ++ [QueryDone downloaded (Workflows.out a)]
    /\ contents st' = written ++ contents st
    /\ len (ok_lines lines) = downloaded
    /\ Forall (truthful (Workflows.out a) results written) (ok_lines lines).
Proof.
  intros Hk Hne Hmk Ht Hs.
  unfold Workflows.main. rewrite Hk.
  destruct api_key as [|c k]; [congruence|].
  unfold bind at 1. rewrite Hmk.
  unfold bind at 1. rewrite Ht.
  unfold bind at 1. rewrite Hs.
  unfold bind at 1. unfold print at 1.
  set (st3 := log _ st2).
  destruct (for_each_item_lines a token (Workflows.out a) results 0%Z st3)
    as (d & st4 & lines & written & H1 & Hp & Hc & Hl & Hf).
  unfold bind. rewrite H1. unfold print.
  do 2 eexists. exists lines, written.
  split; [reflexivity|].
  cbn [log events contents]. rewrite printed_cons, Hp, Hc. subst st3.
  cbn [log events contents]. rewrite printed_cons.
  destruct (search_icons_quiet _ _ _ _ _ Hs) as [Hp2 Hc2]. rewrite Hp2, Hc2.
  pose proof (get_token_state w (c :: k) st0) as Hstate.
  rewrite <- get_token_same, Ht in Hstate. cbn [snd] in Hstate.
  subst st1. cbn [log events contents]. rewrite printed_cons, app_nil_r.
  unfold mkdir_parents in Hmk. destruct (existsb _ _); [discriminate|].
  injection Hmk as <-. cbn [events contents]. rewrite printed_cons, app_nil_r.
  split; [rewrite <- !app_assoc; reflexivity|].
  split; [reflexivity|].
  split; [lia | exact Hf].
Qed.
End Count.

(** One result, downloaded from a direct reply: one success line, and a
    count of one. *)
Lemma workflows_count_is_success_lines_witness :
  exists downloaded st' lines written,
    Workflows.main direct_png_world (query_args png 10) empty_state = (Ok tt, st')
    /\ printed (events st')
       = printed (events empty_state)
         ++ QueryFound 1 10 :: lines ++ [QueryDone downloaded [lit "icons"]]
    /\ contents st' = written ++ contents empty_state
    /\ len (ok_lines lines) = downloaded
    /\ Forall (truthful [lit "icons"] [record_of_id 11] written) (ok_lines lines).
Proof.
  apply (@workflows_count_is_success_lines direct_png_world (query_args png 10)
           empty_state
           {| events := [EvMkdir [lit "icons"]]; dirs := [[lit "icons"]]; contents := [] |}
           authenticated_state
           {| events := [EvRequest (Workflows.search_request (lit "T1") (lit "api")
                                      priority 10 [] 1);
                         EvRequest (auth_request (lit "KEY")); EvMkdir [lit "icons"]];
              dirs := [[lit "icons"]]; contents := [] |}
           (lit "KEY") (lit "T1") [record_of_id 11]);
    first [ reflexivity | discriminate ].
Defined.
